(** * Bank Data Interactive Dashboard: the filter pipeline of [streamlit_app.py]

    The script is straight-line Python over a pandas [DataFrame]: it copies
    the cached base table, narrows it with three boolean masks (gender, age
    range, sales range), computes three summary metrics, a placeholder
    prediction and a CSV export.

    Modelling conventions.
    - A float64 column cell is a [num]: [NaN] for a blank cell, [Fin q] for a
      finite value, with [q] the exact rational the cell denotes.  Rounding of
      float arithmetic and the infinities are outside the model.
    - A [DataFrame] is the list of its rows in positional order; each row
      carries its index label, the four columns the script reads
      ([demog_age] and [int_tgt] as float64, [demog_genf] and [demog_genm] as
      object columns) and the cells of the columns it only passes through.
    - Python objects live in a [store]; a name such as [data] or
      [filtered_data] is bound to a location.  Exceptions are the [Raise]
      results of the [Py] monad.
    - A widget is a function of the arguments of its call and of what the
      user set for its key, if anything.
    - The headings, texts and plots that the script draws from
      [filtered_data] are not part of the model. *)

From Stdlib Require Import ZArith QArith Qabs Lqa List Bool Ascii String.
From Stdlib Require DecimalString.
From stdpp Require Import gmap strings list.

Local Open Scope Z_scope.

(** ** Numbers *)

Inductive num : Type :=
| NaN
| Fin (q : Q).

Inductive exn : Type :=
| ValueError (msg : string)
| IndexError (msg : string)
| KeyError (key : string).

Inductive result (A : Type) : Type :=
| Ok (a : A)
| Raise (e : exn).
Arguments Ok {A} a.
Arguments Raise {A} e.

(** [int(x)] on a float: truncation toward zero; [int(float('nan'))] raises. *)
Definition trunc (q : Q) : Z := Z.quot (Qnum q) (Zpos (Qden q)).

Definition py_int (x : num) : result Z :=
  match x with
  | NaN => Raise (ValueError "cannot convert float NaN to integer")
  | Fin q => Ok (trunc q)
  end.

(** Elementwise comparison of a float cell with a Python int: any comparison
    with NaN is [False]. *)
Definition num_ge (x : num) (k : Z) : bool :=
  match x with
  | NaN => false
  | Fin q => Qle_bool (inject_Z k) q
  end.

Definition num_le (x : num) (k : Z) : bool :=
  match x with
  | NaN => false
  | Fin q => Qle_bool q (inject_Z k)
  end.

(** ** Cells, rows and frames *)

Inductive cell : Type :=
| Missing
| Integer (z : Z)
| Number (q : Q)
| Text (s : string).

Record Row : Type := mkRow {
  label : nat;
  demog_age : num;
  demog_genf : cell;
  demog_genm : cell;
  int_tgt : num;
  other : list cell
}.

Definition DataFrame : Type := list Row.

(** [cell == 'yes'], elementwise on an object column. *)
Definition cell_eq_str (c : cell) (s : string) : bool :=
  match c with
  | Text t => String.eqb t s
  | _ => false
  end.

(** ** Series operations *)

Definition dropna (s : list num) : list Q :=
  flat_map (fun x => match x with NaN => [] | Fin q => [q] end) s.

Definition Qminb (a b : Q) : Q := if Qle_bool a b then a else b.
Definition Qmaxb (a b : Q) : Q := if Qle_bool a b then b else a.

(** [Series.min()] and [Series.max()] skip NaN; on no values they are NaN. *)
Definition series_min (s : list num) : num :=
  match dropna s with
  | [] => NaN
  | q :: qs => Fin (fold_left Qminb qs q)
  end.

Definition series_max (s : list num) : num :=
  match dropna s with
  | [] => NaN
  | q :: qs => Fin (fold_left Qmaxb qs q)
  end.

(** [Series.sum()] skips NaN; the sum of no values is 0. *)
Definition series_sum (s : list num) : num :=
  Fin (fold_left Qplus (dropna s) (0 # 1)%Q).

(** [Series.mean()] skips NaN; the mean of no values is NaN. *)
Definition series_mean (s : list num) : num :=
  match dropna s with
  | [] => NaN
  | q :: qs =>
      Fin (fold_left Qplus (q :: qs) (0 # 1) / inject_Z (Z.of_nat (length (q :: qs))))%Q
  end.

Fixpoint insert_sorted (x : Q) (l : list Q) : list Q :=
  match l with
  | [] => [x]
  | y :: l' => if Qle_bool x y then x :: y :: l' else y :: insert_sorted x l'
  end.

Definition sort_values (l : list Q) : list Q := fold_right insert_sorted [] l.

(** [Series.median()] skips NaN; the middle value of the sorted values, the
    mean of the two middle ones for an even count, NaN for no values. *)
Definition series_median (s : list num) : num :=
  let v := sort_values (dropna s) in
  let n := length v in
  match n with
  | O => NaN
  | _ =>
      if Nat.even n
      then Fin ((nth (n / 2 - 1) v (0 # 1) + nth (n / 2) v (0 # 1)) / (2 # 1))%Q
      else Fin (nth (n / 2) v (0 # 1))
  end.

(** ** Boolean masks *)

Definition series_ge (s : list num) (k : Z) : list bool := map (fun x => num_ge x k) s.
Definition series_le (s : list num) (k : Z) : list bool := map (fun x => num_le x k) s.
Definition series_eq_str (s : list cell) (v : string) : list bool :=
  map (fun c => cell_eq_str c v) s.
Definition mask_and (a b : list bool) : list bool := zip_with andb a b.

(** [df[mask]]: the rows at which the mask holds, in order. *)
Fixpoint getitem_mask (df : DataFrame) (mask : list bool) : DataFrame :=
  match df, mask with
  | r :: df', b :: mask' =>
      if b then r :: getitem_mask df' mask' else getitem_mask df' mask'
  | _, _ => []
  end.

(** ** The object store and the [Py] monad *)

Definition loc : Type := nat.
Abbreviation store := (gmap loc DataFrame).

Definition Py (A : Type) : Type := store -> result A * store.

#[global] Instance Py_ret : MRet Py := fun A a σ => (Ok a, σ).
#[global] Instance Py_bind : MBind Py := fun A B k m σ =>
  match m σ with
  | (Ok a, σ') => k a σ'
  | (Raise e, σ') => (Raise e, σ')
  end.

Definition lift {A : Type} (r : result A) : Py A := fun σ => (r, σ).

(** A new object is placed at a location the store does not use yet. *)
Definition alloc (df : DataFrame) : Py loc :=
  fun σ => let l := fresh (dom σ) in (Ok l, <[l := df]> σ).

Definition deref (l : loc) : Py DataFrame :=
  fun σ =>
    match σ !! l with
    | Some df => (Ok df, σ)
    | None => (Raise (KeyError "unbound object"), σ)
    end.

(** ** DataFrame methods used by the script *)

(** [df.copy()] *)
Definition df_copy (l : loc) : Py loc := df ← deref l; alloc df.

(** [df[name]] for the two float columns and the two object columns. *)
Definition num_column (name : string) : result (Row -> num) :=
  if String.eqb name "demog_age" then Ok demog_age
  else if String.eqb name "int_tgt" then Ok int_tgt
  else Raise (KeyError name).

Definition obj_column (name : string) : result (Row -> cell) :=
  if String.eqb name "demog_genf" then Ok demog_genf
  else if String.eqb name "demog_genm" then Ok demog_genm
  else Raise (KeyError name).

Definition getitem_num (l : loc) (name : string) : Py (list num) :=
  f ← lift (num_column name); df ← deref l; mret (map f df).

Definition getitem_obj (l : loc) (name : string) : Py (list cell) :=
  f ← lift (obj_column name); df ← deref l; mret (map f df).

(** [df[mask]] builds a new frame. *)
Definition df_getitem_mask (l : loc) (mask : list bool) : Py loc :=
  df ← deref l; alloc (getitem_mask df mask).

(** ** Python string helpers *)

Definition ascii_lower (c : ascii) : ascii :=
  let n := nat_of_ascii c in
  if (Nat.leb 65 n && Nat.leb n 90)%bool then ascii_of_nat (n + 32) else c.

(** [s[0].lower()] *)
Definition first_lower (s : string) : result string :=
  match s with
  | EmptyString => Raise (IndexError "string index out of range")
  | String c _ => Ok (String (ascii_lower c) EmptyString)
  end.

(** ** Widgets

    A widget returns the value the user set for its key, and its default
    when the user has not touched it. *)

Inductive gender_choice : Type := All | Male | Female.

Definition gender_options : list string := ["All"; "Male"; "Female"].

Record Session : Type := mkSession {
  gender_filter : option gender_choice;
  age_slider : option (Z * Z);
  sales_slider : option (Z * Z);
  predict_sales : option Q
}.

Definition selectbox (options : list string) (state : option gender_choice) : string :=
  match state with
  | None | Some All => nth 0 options ""
  | Some Male => nth 1 options ""
  | Some Female => nth 2 options ""
  end.

Definition slider (min_value max_value : Z) (value : Z * Z) (state : option (Z * Z)) : Z * Z :=
  default value state.

Definition number_input (min_value value step : Q) (state : option Q) : Q :=
  default value state.

(** ** Format specifications

    [format(x, ',.2f')] and [format(x, '.2f')]: two decimals, the exact value
    rounded half to even, a minus sign for every negative value, and with
    [','] a comma between groups of three integer digits.  NaN prints as
    [nan]. *)

Definition round_half_even (q : Q) : Z :=
  let n := Qnum q in
  let d := Zpos (Qden q) in
  let fl := n / d in
  let r2 := 2 * (n mod d) in
  if r2 <? d then fl
  else if d <? r2 then fl + 1
  else if Z.even fl then fl else fl + 1.

Definition digits (z : Z) : list ascii :=
  list_ascii_of_string (DecimalString.NilZero.string_of_uint (N.to_uint (Z.to_N z))).

(** Insert a comma before every complete group of three digits, given the
    digits from the least significant one. *)
Fixpoint group3 (rev_digits : list ascii) (acc : list ascii) : list ascii :=
  match rev_digits with
  | a :: b :: c :: ((_ :: _) as rest) => group3 rest ("," :: c :: b :: a :: acc)%char
  | _ => rev_append rev_digits acc
  end.

Definition pad2 (z : Z) : list ascii :=
  match digits z with
  | [d] => ["0"%char; d]
  | ds => ds
  end.

Definition format_2f (grouping : bool) (x : num) : string :=
  match x with
  | NaN => "nan"
  | Fin q =>
      let cents := round_half_even (Qabs q * inject_Z 100) in
      let whole := digits (cents / 100) in
      let whole := if grouping then group3 (rev whole) [] else whole in
      let sign := if Qle_bool (0 # 1) q then [] else ["-"%char] in
      string_of_list_ascii (sign ++ whole ++ "."%char :: pad2 (cents mod 100))
  end.

(** ** The script *)

(** What one run of the script shows: the bounds handed to the two sliders,
    the two selected ranges, the final [filtered_data], the values of the
    three metrics and the prediction. *)
Record Output : Type := mkOutput {
  age_slider_min : Z;
  age_slider_max : Z;
  age_range : Z * Z;
  sales_min : Z;
  sales_max : Z;
  sales_range : Z * Z;
  filtered_data : DataFrame;
  average_sales : num;
  total_sales : num;
  median_age : num;
  predicted_sales : Q
}.

(** The multiplier [1.2] of line 102. *)
Definition multiplier : Q := 12 # 10.

Definition script (data : loc) (ui : Session) : Py Output :=
  (* Gender Filter *)
  let gender := selectbox gender_options (gender_filter ui) in
  filtered_data ← df_copy data;
  filtered_data ←
    (if negb (String.eqb gender "All") then
       c ← lift (first_lower gender);
       col ← getitem_obj filtered_data (String.append "demog_gen" c);
       df_getitem_mask filtered_data (series_eq_str col "yes")
     else mret filtered_data);
  (* Age Filter *)
  ages ← getitem_num filtered_data "demog_age";
  age_lo ← lift (py_int (series_min ages));
  ages ← getitem_num filtered_data "demog_age";
  age_hi ← lift (py_int (series_max ages));
  let age_range := slider age_lo age_hi (20, 30) (age_slider ui) in
  lhs ← getitem_num filtered_data "demog_age";
  rhs ← getitem_num filtered_data "demog_age";
  filtered_data ←
    df_getitem_mask filtered_data
      (mask_and (series_ge lhs (fst age_range)) (series_le rhs (snd age_range)));
  (* New Sales (INT_TGT) Filter *)
  sales ← getitem_num data "int_tgt";
  sales_min ← lift (py_int (series_min sales));
  sales ← getitem_num data "int_tgt";
  sales_max ← lift (py_int (series_max sales));
  let sales_range :=
    slider sales_min sales_max (sales_min, sales_max) (sales_slider ui) in
  lhs ← getitem_num filtered_data "int_tgt";
  rhs ← getitem_num filtered_data "int_tgt";
  filtered_data ←
    df_getitem_mask filtered_data
      (mask_and (series_ge lhs (fst sales_range)) (series_le rhs (snd sales_range)));
  (* Metric Display *)
  tgt ← getitem_num filtered_data "int_tgt";
  let average := series_mean tgt in
  tgt ← getitem_num filtered_data "int_tgt";
  let total := series_sum tgt in
  ages ← getitem_num filtered_data "demog_age";
  let median := series_median ages in
  (* Predictive Insights *)
  let input_sales := number_input (0 # 1) (50 # 1) (1 # 1) (predict_sales ui) in
  let predicted_sales := (input_sales * multiplier)%Q in
  view ← deref filtered_data;
  mret {| age_slider_min := age_lo; age_slider_max := age_hi;
          age_range := age_range;
          sales_min := sales_min; sales_max := sales_max;
          sales_range := sales_range;
          filtered_data := view;
          average_sales := average; total_sales := total;
          median_age := median;
          predicted_sales := predicted_sales |}.

(** The values of the three [st.metric] calls and of the prediction line. *)
Section Display.
(** [str(x)] of a finite float, the shortest digits that read back as [x];
    it is a function of the float, not of the rational it denotes. *)
Variable float_str : Q -> string.


Definition prediction_line (o : Output) : string :=
  String.append "Predicted New Sales: **$"
    (String.append (format_2f false (Fin (predicted_sales o))) "**").
End Display.

(** ** The script without the store

    The three row-selection predicates, and the result of a run as a function
    of the contents of [data]. *)

#[global] Instance result_ret : MRet result := fun A a => Ok a.
#[global] Instance result_bind : MBind result := fun A B k r =>
  match r with
  | Ok a => k a
  | Raise e => Raise e
  end.

Definition gender_pred (g : gender_choice) (r : Row) : bool :=
  match g with
  | All => true
  | Male => cell_eq_str (demog_genm r) "yes"
  | Female => cell_eq_str (demog_genf r) "yes"
  end.

Definition age_pred (range : Z * Z) (r : Row) : bool :=
  num_ge (demog_age r) (fst range) && num_le (demog_age r) (snd range).

Definition sales_pred (range : Z * Z) (r : Row) : bool :=
  num_ge (int_tgt r) (fst range) && num_le (int_tgt r) (snd range).

(** [df[p(df)]] for a row-wise condition [p]. *)
Definition select (p : Row -> bool) (df : DataFrame) : DataFrame :=
  getitem_mask df (map p df).

Definition by_gender (g : gender_choice) (df : DataFrame) : DataFrame :=
  match g with
  | All => df
  | _ => select (gender_pred g) df
  end.

Definition pipeline (base : DataFrame) (ui : Session) : result Output :=
  let g := default All (gender_filter ui) in
  let gendered := by_gender g base in
  age_lo ← py_int (series_min (map demog_age gendered));
  age_hi ← py_int (series_max (map demog_age gendered));
  let age_range := default (20, 30) (age_slider ui) in
  let aged := select (age_pred age_range) gendered in
  sales_min ← py_int (series_min (map int_tgt base));
  sales_max ← py_int (series_max (map int_tgt base));
  let sales_range := default (sales_min, sales_max) (sales_slider ui) in
  let view := select (sales_pred sales_range) aged in
  Ok {| age_slider_min := age_lo; age_slider_max := age_hi;
        age_range := age_range;
        sales_min := sales_min; sales_max := sales_max;
        sales_range := sales_range;
        filtered_data := view;
        average_sales := series_mean (map int_tgt view);
        total_sales := series_sum (map int_tgt view);
        median_age := series_median (map demog_age view);
        predicted_sales := (default (50 # 1) (predict_sales ui) * multiplier)%Q |}.

(** ** Export

    [df.to_csv(index=False)] writes the column names and then one record per
    row, in the dialect of pandas' defaults: fields separated by a comma,
    records ended by a line feed, a field quoted when it holds a character
    that would otherwise be read as structure, and a quote inside a quoted
    field doubled.  The index labels are not written.  A [str] is modelled
    by the string of its UTF-8 bytes, so [.encode('utf-8')] is the list of
    these bytes. *)

Definition comma : ascii := ","%char.
Definition dquote : ascii := ascii_of_nat 34.
Definition LF : ascii := ascii_of_nat 10.

Definition bytes : Type := list ascii.

(** [str(z)] for an int64 cell. *)
Definition int_str (z : Z) : string :=
  string_of_list_ascii (if z <? 0 then "-"%char :: digits (- z) else digits z).

Section ToCsv.
(** The text written for a finite float64 cell. *)
Variable float_str : Q -> string.
(** The characters that force a field into quotes.  The [csv] writer takes
    the delimiter, the quote character and the characters of the line
    terminator; later versions add the carriage return. *)
Variable must_quote : ascii -> bool.
(** The names of the columns the script passes through, in file order. *)
Variable other_columns : list string.

(** A missing value is written as the empty field ([na_rep='']). *)
Definition cell_text (c : cell) : string :=
  match c with
  | Missing => ""
  | Integer z => int_str z
  | Number q => float_str q
  | Text s => s
  end.

Definition num_text (x : num) : string :=
  match x with
  | NaN => ""
  | Fin q => float_str q
  end.

(** The columns in file order; the four that the script reads are taken to
    come first. *)
Definition header : list string :=
  ["demog_age"; "demog_genf"; "demog_genm"; "int_tgt"] ++ other_columns.

Definition row_text (r : Row) : list string :=
  [num_text (demog_age r); cell_text (demog_genf r);
   cell_text (demog_genm r); num_text (int_tgt r)]
  ++ map cell_text (other r).

Fixpoint escape (f : list ascii) : list ascii :=
  match f with
  | [] => []
  | c :: f' =>
      if Ascii.eqb c dquote then dquote :: dquote :: escape f'
      else c :: escape f'
  end.

Definition write_field (force : bool) (f : string) : bytes :=
  let cs := list_ascii_of_string f in
  if force || existsb must_quote cs
  then dquote :: escape cs ++ [dquote]
  else cs.

Fixpoint write_fields (fs : list string) : bytes :=
  match fs with
  | [] => []
  | [f] => write_field false f
  | f :: fs' => write_field false f ++ comma :: write_fields fs'
  end.

(** A record that is one empty field is written as a pair of quotes, so
    that it is not a blank line. *)
Definition write_record (fs : list string) : bytes :=
  match fs with
  | [f] => write_field (String.eqb f "") f ++ [LF]
  | _ => write_fields fs ++ [LF]
  end.

Definition to_csv (df : DataFrame) : string :=
  string_of_list_ascii
    (write_record header ++ concat (map (fun r => write_record (row_text r)) df)).

Definition encode_utf8 (s : string) : bytes := list_ascii_of_string s.

Definition convert_df_to_csv (df : DataFrame) : bytes := encode_utf8 (to_csv df).

(** The bytes handed to the download button. *)
Definition csv_data (o : Output) : bytes := convert_df_to_csv (filtered_data o).
End ToCsv.

(** Reading the dialect back: the records of a file, each the list of its
    fields.  Blank lines are skipped. *)
Inductive reader_state : Type :=
| StartRecord
| StartField
| InField
| InQuoted
| QuoteInQuoted.

Definition end_field (field : list ascii) (record : list string) : list string :=
  record ++ [string_of_list_ascii field].

Fixpoint read_records (st : reader_state) (field : list ascii)
    (record : list string) (records : list (list string)) (input : bytes)
    : option (list (list string)) :=
  match input with
  | [] =>
      match st with
      | StartRecord => Some records
      | InQuoted => None
      | _ => Some (records ++ [end_field field record])
      end
  | c :: rest =>
      match st with
      | StartRecord =>
          if Ascii.eqb c LF then read_records StartRecord [] [] records rest
          else if Ascii.eqb c dquote then read_records InQuoted [] [] records rest
          else if Ascii.eqb c comma then read_records StartField [] [""%string] records rest
          else read_records InField [c] [] records rest
      | StartField =>
          if Ascii.eqb c LF
          then read_records StartRecord [] [] (records ++ [end_field [] record]) rest
          else if Ascii.eqb c dquote then read_records InQuoted [] record records rest
          else if Ascii.eqb c comma
          then read_records StartField [] (end_field [] record) records rest
          else read_records InField [c] record records rest
      | InField =>
          if Ascii.eqb c LF
          then read_records StartRecord [] [] (records ++ [end_field field record]) rest
          else if Ascii.eqb c comma
          then read_records StartField [] (end_field field record) records rest
          else read_records InField (field ++ [c]) record records rest
      | InQuoted =>
          if Ascii.eqb c dquote then read_records QuoteInQuoted field record records rest
          else read_records InQuoted (field ++ [c]) record records rest
      | QuoteInQuoted =>
          if Ascii.eqb c dquote
          then read_records InQuoted (field ++ [dquote]) record records rest
          else if Ascii.eqb c LF
          then read_records StartRecord [] [] (records ++ [end_field field record]) rest
          else if Ascii.eqb c comma
          then read_records StartField [] (end_field field record) records rest
          else None
      end
  end.

(** The first record names the columns; the others are the rows. *)
Definition read_csv (input : bytes) : option (list string * list (list string)) :=
  match read_records StartRecord [] [] [] input with
  | Some (names :: rows) => Some (names, rows)
  | _ => None
  end.

(** ** Sample inputs *)

Definition alice : Row :=
  mkRow 0 (Fin (25 # 1)) (Text "yes") (Text "no") (Fin (100 # 1)) [Text "a"].
Definition bob : Row :=
  mkRow 1 (Fin (41 # 2)) (Text "no") (Text "yes") (Fin (7000 # 1)) [Text "b"].
Definition carol : Row :=
  mkRow 2 (Fin (29 # 1)) (Text "yes") (Text "no") NaN [Missing].
Definition dave : Row :=
  mkRow 3 NaN (Text "no") (Text "yes") (Fin (0 # 1)) [Text "d"].
Definition erin : Row :=
  mkRow 4 (Fin (52 # 1)) (Text "yes") (Text "no") (Fin (300 # 1)) [Text "e"].

Definition sample : DataFrame := [alice; bob; carol; dave; erin].
Definition sample_store : store := {[ 0%nat := sample ]}.
Definition untouched : Session := mkSession None None None None.

(** The run on [sample] with no widget touched: gender [All], ages 20 to 30,
    the whole sales range. *)
Definition sample_out : Output :=
  mkOutput 20 52 (20, 30) 0 7000 (0, 7000) [alice; bob]
    (Fin (7100 # 2)) (Fin (7100 # 1)) (Fin (91 # 4)) (600 # 10).

(** A narrower selection on [sample]: women, ages 21 to 60, sales 50 to 200. *)
Definition narrowed : Session :=
  mkSession (Some Female) (Some (21, 60)) (Some (50, 200)) (Some (10 # 1)).
Definition narrowed_out : Output :=
  mkOutput 25 52 (21, 60) 0 7000 (50, 200) [alice]
    (Fin (100 # 1)) (Fin (100 # 1)) (Fin (25 # 1)) (120 # 10).

(** Gender untouched, both ranges narrowed. *)
Definition tightened : Session :=
  mkSession None (Some (21, 29)) (Some (50, 200)) None.
Definition tightened_out : Output :=
  mkOutput 20 52 (21, 29) 0 7000 (50, 200) [alice]
    (Fin (100 # 1)) (Fin (100 # 1)) (Fin (25 # 1)) (600 # 10).

(** A table with no blank cell and whole sales figures. *)
Definition complete : DataFrame := [alice; bob; erin].
Definition complete_store : store := {[ 0%nat := complete ]}.
Definition complete_out : Output :=
  mkOutput 20 52 (20, 30) 100 7000 (100, 7000) [alice; bob]
    (Fin (7100 # 2)) (Fin (7100 # 1)) (Fin (91 # 4)) (600 # 10).

(** A table of women only, and the selection of men on it. *)
Definition women_store : store := {[ 0%nat := [alice; carol; erin] ]}.
Definition men_only : Session := mkSession (Some Male) None None None.

(** Two customers, one of whom bought nothing; the default age range keeps
    that one only, and an age range between the two ages keeps nobody. *)
Definition frank : Row :=
  mkRow 0 (Fin (20 # 1)) (Text "no") (Text "yes") (Fin (0 # 1)) [Text "f"].
Definition grace : Row :=
  mkRow 1 (Fin (40 # 1)) (Text "yes") (Text "no") (Fin (100 # 1)) [Text "g"].
Definition idle_store : store := {[ 0%nat := [frank; grace] ]}.
Definition thirties : Session := mkSession None (Some (25, 35)) None None.
Definition thirties_out : Output :=
  mkOutput 20 40 (25, 35) 0 100 (0, 100) []
    NaN (Fin (0 # 1)) NaN (600 # 10).

(** The quoting rule of the [csv] writer for the line terminator [\n], a
    printer of numbers with two decimals, and one pass-through column. *)
Definition quote_minimal (c : ascii) : bool :=
  Ascii.eqb c comma || Ascii.eqb c dquote || Ascii.eqb c LF.
Definition two_decimals (q : Q) : string := format_2f false (Fin q).
Definition sample_columns : list string := ["segment"].


(** The same wide ranges for every customer and for women only. *)
Definition adults : Session :=
  mkSession None (Some (20, 60)) (Some (50, 7000)) None.
Definition adults_out : Output :=
  mkOutput 20 52 (20, 60) 0 7000 (50, 7000) [alice; bob; erin]
    (Fin (7400 # 3)) (Fin (7400 # 1)) (Fin (25 # 1)) (600 # 10).
Definition women : Session :=
  mkSession (Some Female) (Some (20, 60)) (Some (50, 7000)) None.
Definition women_out : Output :=
  mkOutput 25 52 (20, 60) 0 7000 (50, 7000) [alice; erin]
    (Fin (400 # 2)) (Fin (400 # 1)) (Fin (77 # 2)) (600 # 10).

(** An age range above the oldest customer of [sample]. *)
Definition seniors : Session := mkSession None (Some (53, 60)) None None.
Definition seniors_out : Output :=
  mkOutput 20 52 (53, 60) 0 7000 (0, 7000) []
    NaN (Fin (0 # 1)) NaN (600 # 10).

(** A larger entry in the number field, on the table of two customers. *)
Definition forecast : Session := mkSession None None None (Some (25 # 1)).
Definition forecast_out : Output :=
  mkOutput 20 40 (20, 30) 0 100 (0, 100) [frank]
    (Fin (0 # 1)) (Fin (0 # 1)) (Fin (20 # 1)) (300 # 10).

(** * Properties *)

(** ** Format specifications *)

Example format_2f_grouping :
  format_2f true (Fin (1234567 # 1)) = "1,234,567.00"%string.
Proof. reflexivity. Qed.

Example format_2f_half_even :
  format_2f true (Fin (1005 # 1000)) = "1.00"%string
  /\ format_2f true (Fin (1015 # 1000)) = "1.02"%string.
Proof. split; reflexivity. Qed.

Example format_2f_negative :
  format_2f false (Fin (-123456 # 100)) = "-1234.56"%string
  /\ format_2f true (Fin (-1 # 1000)) = "-0.00"%string.
Proof. split; reflexivity. Qed.

(** ** Masks and selections *)

Lemma getitem_mask_filter (p : Row -> bool) (df : DataFrame) :
  select p df = List.filter p df.
Proof.
  unfold select. induction df as [|r df IH]; simpl; [done|].
  destruct (p r); by rewrite IH.
Qed.

Lemma mask_and_map (p q : Row -> bool) (df : DataFrame) :
  mask_and (map p df) (map q df) = map (fun r => p r && q r) df.
Proof. unfold mask_and. induction df; simpl; congruence. Qed.

Lemma getitem_mask_sublist (df : DataFrame) (mask : list bool) :
  getitem_mask df mask `sublist_of` df.
Proof.
  revert mask. induction df as [|r df IH]; intros [|[] mask]; simpl;
    try apply sublist_nil_l.
  - by apply sublist_skip.
  - by apply sublist_cons.
Qed.

(** ** Running the script *)

Lemma lookup_alloc_old (σ : store) (l : loc) (df v : DataFrame) :
  σ !! l = Some df -> <[fresh (dom σ) := v]> σ !! l = Some df.
Proof.
  intros H. rewrite lookup_insert_ne; [done|].
  intros Heq. apply (is_fresh (dom σ)). rewrite Heq. apply elem_of_dom. by exists df.
Qed.

Lemma run_deref (σ : store) (l : loc) (df : DataFrame) :
  σ !! l = Some df -> deref l σ = (Ok df, σ).
Proof. intros H. unfold deref. by rewrite H. Qed.

Lemma run_getitem_num (σ : store) (l : loc) (df : DataFrame) name f :
  num_column name = Ok f -> σ !! l = Some df ->
  getitem_num l name σ = (Ok (map f df), σ).
Proof.
  intros Hf H. unfold getitem_num, mbind, Py_bind, lift. rewrite Hf.
  by rewrite (run_deref _ _ _ H).
Qed.

Lemma run_getitem_obj (σ : store) (l : loc) (df : DataFrame) name f :
  obj_column name = Ok f -> σ !! l = Some df ->
  getitem_obj l name σ = (Ok (map f df), σ).
Proof.
  intros Hf H. unfold getitem_obj, mbind, Py_bind, lift. rewrite Hf.
  by rewrite (run_deref _ _ _ H).
Qed.

Lemma run_df_copy (σ : store) (l : loc) (df : DataFrame) :
  σ !! l = Some df ->
  df_copy l σ = (Ok (fresh (dom σ)), <[fresh (dom σ) := df]> σ).
Proof.
  intros H. unfold df_copy, mbind, Py_bind. by rewrite (run_deref _ _ _ H).
Qed.

Lemma run_df_getitem_mask (σ : store) (l : loc) (df : DataFrame) mask :
  σ !! l = Some df ->
  df_getitem_mask l mask σ
  = (Ok (fresh (dom σ)), <[fresh (dom σ) := getitem_mask df mask]> σ).
Proof.
  intros H. unfold df_getitem_mask, mbind, Py_bind. by rewrite (run_deref _ _ _ H).
Qed.

Lemma run_bind {A B : Type} (m : Py A) (k : A -> Py B) (σ : store) :
  (m ≫= k) σ
  = match m σ with
    | (Ok a, σ') => k a σ'
    | (Raise e, σ') => (Raise e, σ')
    end.
Proof. reflexivity. Qed.

Lemma insert_fresh_subseteq (σ : store) (v : DataFrame) :
  σ ⊆ <[fresh (dom σ) := v]> σ.
Proof.
  apply insert_subseteq. apply not_elem_of_dom. apply is_fresh.
Qed.

Lemma run_lift {A : Type} (r : result A) (σ : store) : lift r σ = (r, σ).
Proof. reflexivity. Qed.

Lemma run_ret {A : Type} (a : A) (σ : store) : (mret a : Py A) σ = (Ok a, σ).
Proof. reflexivity. Qed.

(** The gender stage (lines 36-37) binds [filtered_data] to an object that
    holds [by_gender g] of the copy. *)
Lemma run_gender_stage (g : option gender_choice) (l : loc) (σ : store)
    (df : DataFrame) :
  σ !! l = Some df ->
  exists l' σ',
    (if negb (String.eqb (selectbox gender_options g) "All") then
       c ← lift (first_lower (selectbox gender_options g));
       col ← getitem_obj l (String.append "demog_gen" c);
       df_getitem_mask l (series_eq_str col "yes")
     else mret l) σ = (Ok l', σ')
    /\ σ' !! l' = Some (by_gender (default All g) df)
    /\ σ ⊆ σ'.
Proof.
  intros Hl.
  destruct g as [[| |]|]; simpl.
  - by exists l, σ.
  - exists (fresh (dom σ)), (<[fresh (dom σ) := select (gender_pred Male) df]> σ).
    split; [|split].
    + rewrite run_bind, run_lift. simpl.
      rewrite run_bind, (run_getitem_obj _ _ df _ demog_genm) by done.
      rewrite (run_df_getitem_mask _ _ df) by done.
      unfold select, series_eq_str. by rewrite List.map_map.
    + apply lookup_insert_eq.
    + apply insert_fresh_subseteq.
  - exists (fresh (dom σ)), (<[fresh (dom σ) := select (gender_pred Female) df]> σ).
    split; [|split].
    + rewrite run_bind, run_lift. simpl.
      rewrite run_bind, (run_getitem_obj _ _ df _ demog_genf) by done.
      rewrite (run_df_getitem_mask _ _ df) by done.
      unfold select, series_eq_str. by rewrite List.map_map.
    + apply lookup_insert_eq.
    + apply insert_fresh_subseteq.
  - by exists l, σ.
Qed.

Lemma script_pipeline (data : loc) (ui : Session) (σ : store) (base : DataFrame) :
  σ !! data = Some base ->
  exists σ', script data ui σ = (pipeline base ui, σ') /\ σ ⊆ σ'.
Proof.
  intros Hdata. unfold script, pipeline.
  rewrite run_bind, (run_df_copy _ _ _ Hdata).
  set (l1 := fresh (dom σ)). set (σ1 := <[l1 := base]> σ).
  assert (H1 : σ1 !! l1 = Some base) by apply lookup_insert_eq.
  assert (S1 : σ ⊆ σ1) by apply insert_fresh_subseteq.
  rewrite run_bind.
  destruct (run_gender_stage (gender_filter ui) l1 σ1 base H1)
    as (l2 & σ2 & -> & H2 & S2).
  set (gendered := by_gender (default All (gender_filter ui)) base) in *.
  rewrite run_bind, (run_getitem_num _ _ gendered _ demog_age) by done.
  rewrite run_bind, run_lift.
  destruct (py_int (series_min (map demog_age gendered))) as [age_lo|e]; simpl;
    [|exists σ2; split; [done | by etrans]].
  rewrite run_bind, (run_getitem_num _ _ gendered _ demog_age) by done.
  rewrite run_bind, run_lift.
  destruct (py_int (series_max (map demog_age gendered))) as [age_hi|e]; simpl;
    [|exists σ2; split; [done | by etrans]].
  rewrite run_bind, (run_getitem_num _ _ gendered _ demog_age) by done.
  rewrite run_bind, (run_getitem_num _ _ gendered _ demog_age) by done.
  rewrite run_bind, (run_df_getitem_mask _ _ gendered) by done.
  set (l3 := fresh (dom σ2)).
  set (aged := getitem_mask gendered _).
  set (σ3 := <[l3 := aged]> σ2).
  assert (H3 : σ3 !! l3 = Some aged) by apply lookup_insert_eq.
  assert (S3 : σ ⊆ σ3).
  { etrans; [exact S1|]. etrans; [exact S2|]. apply insert_fresh_subseteq. }
  assert (Hd3 : σ3 !! data = Some base) by exact (lookup_weaken _ _ _ _ Hdata S3).
  assert (Haged : aged = select (age_pred (default (20, 30) (age_slider ui))) gendered).
  { unfold aged, select, series_ge, series_le, slider.
    rewrite !List.map_map, mask_and_map. reflexivity. }
  rewrite run_bind, (run_getitem_num _ _ base _ int_tgt) by done.
  rewrite run_bind, run_lift.
  destruct (py_int (series_min (map int_tgt base))) as [smin|e]; simpl;
    [|by exists σ3].
  rewrite run_bind, (run_getitem_num _ _ base _ int_tgt) by done.
  rewrite run_bind, run_lift.
  destruct (py_int (series_max (map int_tgt base))) as [smax|e]; simpl;
    [|by exists σ3].
  rewrite run_bind, (run_getitem_num _ _ aged _ int_tgt) by done.
  rewrite run_bind, (run_getitem_num _ _ aged _ int_tgt) by done.
  rewrite run_bind, (run_df_getitem_mask _ _ aged) by done.
  set (l4 := fresh (dom σ3)).
  set (view := getitem_mask aged _).
  set (σ4 := <[l4 := view]> σ3).
  assert (H4 : σ4 !! l4 = Some view) by apply lookup_insert_eq.
  assert (Hview : view = select (sales_pred (default (smin, smax) (sales_slider ui)))
                           (select (age_pred (default (20, 30) (age_slider ui))) gendered)).
  { rewrite <- Haged. unfold view, select, series_ge, series_le, slider.
    rewrite !List.map_map, mask_and_map. reflexivity. }
  rewrite run_bind, (run_getitem_num _ _ view _ int_tgt) by done.
  rewrite run_bind, (run_getitem_num _ _ view _ int_tgt) by done.
  rewrite run_bind, (run_getitem_num _ _ view _ demog_age) by done.
  rewrite run_bind, (run_deref _ _ view) by done.
  exists σ4. split.
  - rewrite run_ret, <- Hview. reflexivity.
  - etrans; [exact S3|]. apply insert_fresh_subseteq.
Qed.

Lemma script_unbound (data : loc) (ui : Session) (σ : store) :
  σ !! data = None ->
  script data ui σ = (Raise (KeyError "unbound object"), σ).
Proof.
  intros H. unfold script. rewrite run_bind.
  unfold df_copy. rewrite run_bind. unfold deref. by rewrite H.
Qed.

(** A run that returns has the output of [pipeline]. *)
Lemma script_output (data : loc) (ui : Session) (σ : store)
    (base : DataFrame) (out : Output) :
  σ !! data = Some base ->
  (script data ui σ).1 = Ok out ->
  pipeline base ui = Ok out.
Proof.
  intros Hdata Hrun.
  destruct (script_pipeline data ui σ base Hdata) as (σ' & Heq & _).
  by rewrite Heq in Hrun.
Qed.

(** What [pipeline] returns when it returns. *)
Lemma pipeline_returns (base : DataFrame) (ui : Session) (out : Output) :
  pipeline base ui = Ok out ->
  let gendered := by_gender (default All (gender_filter ui)) base in
  py_int (series_min (map demog_age gendered)) = Ok (age_slider_min out)
  /\ py_int (series_max (map demog_age gendered)) = Ok (age_slider_max out)
  /\ py_int (series_min (map int_tgt base)) = Ok (sales_min out)
  /\ py_int (series_max (map int_tgt base)) = Ok (sales_max out)
  /\ age_range out = default (20, 30) (age_slider ui)
  /\ sales_range out = default (sales_min out, sales_max out) (sales_slider ui)
  /\ filtered_data out
     = select (sales_pred (sales_range out))
         (select (age_pred (age_range out)) gendered)
  /\ average_sales out = series_mean (map int_tgt (filtered_data out))
  /\ total_sales out = series_sum (map int_tgt (filtered_data out))
  /\ median_age out = series_median (map demog_age (filtered_data out))
  /\ predicted_sales out = (default (50 # 1) (predict_sales ui) * multiplier)%Q.
Proof.
  unfold pipeline. intros H; simpl.
  destruct (py_int (series_min (map demog_age _))) as [alo|]; [|done].
  destruct (py_int (series_max (map demog_age _))) as [ahi|]; [|done].
  destruct (py_int (series_min (map int_tgt _))) as [slo|]; [|done].
  destruct (py_int (series_max (map int_tgt _))) as [shi|]; [|done].
  simpl in H. injection H as <-. simpl. repeat split; reflexivity.
Qed.

(** ** Selections narrow, commute and are monotone *)

Lemma select_sublist (p : Row -> bool) (df : DataFrame) :
  select p df `sublist_of` df.
Proof. apply getitem_mask_sublist. Qed.

Lemma by_gender_select (g : gender_choice) (df : DataFrame) :
  by_gender g df = select (gender_pred g) df.
Proof.
  destruct g; simpl; try reflexivity.
  rewrite getitem_mask_filter. induction df; simpl; congruence.
Qed.

Lemma by_gender_sublist (g : gender_choice) (df : DataFrame) :
  by_gender g df `sublist_of` df.
Proof. rewrite by_gender_select. apply select_sublist. Qed.

Lemma select_select (p q : Row -> bool) (df : DataFrame) :
  select p (select q df) = List.filter (fun r => q r && p r) df.
Proof.
  rewrite !getitem_mask_filter.
  induction df as [|r df IH]; simpl; [done|].
  destruct (q r); simpl; [destruct (p r)|]; by rewrite IH.
Qed.

Lemma select_comm (p q : Row -> bool) (df : DataFrame) :
  select p (select q df) = select q (select p df).
Proof.
  rewrite !select_select. apply List.filter_ext. intros r. apply andb_comm.
Qed.

Lemma select3 (p q t : Row -> bool) (df : DataFrame) :
  select p (select q (select t df))
  = List.filter (fun r => t r && q r && p r) df.
Proof.
  rewrite !getitem_mask_filter.
  induction df as [|r df IH]; simpl; [done|].
  destruct (t r); simpl; [destruct (q r); simpl; [destruct (p r)|]|];
    by rewrite IH.
Qed.

Lemma select_mono (p q : Row -> bool) (df : DataFrame) :
  (forall r, p r = true -> q r = true) ->
  select p df `sublist_of` select q df.
Proof.
  intros Hpq. rewrite !getitem_mask_filter.
  induction df as [|r df IH]; simpl; [done|].
  destruct (p r) eqn:Hp.
  - rewrite (Hpq r Hp). by apply sublist_skip.
  - destruct (q r); [by apply sublist_cons | done].
Qed.

Lemma select_mono_arg (p : Row -> bool) (df df' : DataFrame) :
  df' `sublist_of` df -> select p df' `sublist_of` select p df.
Proof.
  rewrite !getitem_mask_filter.
  induction 1 as [|r l1 l2 _ IH|r l1 l2 _ IH]; simpl; [done| |].
  - destruct (p r); [by apply sublist_skip | done].
  - destruct (p r); [by apply sublist_cons | done].
Qed.

(** Comparison of a cell with the bounds of a narrower interval. *)
Lemma num_ge_mono (x : num) (k k' : Z) :
  k <= k' -> num_ge x k' = true -> num_ge x k = true.
Proof.
  destruct x as [|q]; simpl; [done|]. intros Hk H.
  apply Qle_bool_iff in H. apply Qle_bool_iff.
  apply Qle_trans with (inject_Z k'); [|done].
  rewrite <- Zle_Qle. done.
Qed.

Lemma num_le_mono (x : num) (k k' : Z) :
  k' <= k -> num_le x k' = true -> num_le x k = true.
Proof.
  destruct x as [|q]; simpl; [done|]. intros Hk H.
  apply Qle_bool_iff in H. apply Qle_bool_iff.
  apply Qle_trans with (inject_Z k'); [done|].
  rewrite <- Zle_Qle. done.
Qed.

Lemma age_pred_mono (a a' : Z * Z) (r : Row) :
  fst a <= fst a' -> snd a' <= snd a ->
  age_pred a' r = true -> age_pred a r = true.
Proof.
  unfold age_pred. intros Hlo Hhi H. apply andb_true_iff in H as [H1 H2].
  apply andb_true_iff. split; [by eapply num_ge_mono | by eapply num_le_mono].
Qed.

Lemma sales_pred_mono (s s' : Z * Z) (r : Row) :
  fst s <= fst s' -> snd s' <= snd s ->
  sales_pred s' r = true -> sales_pred s r = true.
Proof.
  unfold sales_pred. intros Hlo Hhi H. apply andb_true_iff in H as [H1 H2].
  apply andb_true_iff. split; [by eapply num_ge_mono | by eapply num_le_mono].
Qed.

(** ** The filtered view

    In the statements below [base] is the table bound to [data] when the run
    starts and [out] is what the run shows. *)

(** C1: for every base table and every selection, the view the run ends
    with is a part of the base table: its rows are rows of the base table,
    in the same order and no more often. *)
Theorem filtered_view_subset (data : loc) (ui : Session) (σ : store)
    (base : DataFrame) (out : Output) :
  σ !! data = Some base ->
  (script data ui σ).1 = Ok out ->
  filtered_data out `sublist_of` base
  /\ (forall r, r ∈ filtered_data out -> r ∈ base).
Proof.
  intros Hdata Hrun.
  pose proof (script_output _ _ _ _ _ Hdata Hrun) as Hp.
  apply pipeline_returns in Hp as (_ & _ & _ & _ & _ & _ & Hv & _).
  assert (Hsub : filtered_data out `sublist_of` base).
  { rewrite Hv. etrans; [apply select_sublist|].
    etrans; [apply select_sublist|]. apply by_gender_sublist. }
  split; [exact Hsub|].
  intros r Hr. by eapply elem_of_sublist.
Qed.

Lemma filtered_view_subset_witness :
  sample_store !! 0%nat = Some sample
  /\ (script 0%nat untouched sample_store).1 = Ok sample_out
  /\ filtered_data sample_out `sublist_of` sample.
Proof.
  split; [reflexivity|]. split; [vm_compute; reflexivity|].
  apply (filtered_view_subset 0%nat untouched sample_store sample sample_out);
    [reflexivity | vm_compute; reflexivity].
Defined.

(** C2: applying the gender, age-range and sales-range selections in any of
    the six orders gives the view that the script computes in the order
    gender, age, sales. *)
Theorem filter_order_irrelevant (data : loc) (ui : Session) (σ : store)
    (base : DataFrame) (out : Output) :
  σ !! data = Some base ->
  (script data ui σ).1 = Ok out ->
  let G := by_gender (default All (gender_filter ui)) in
  let A := select (age_pred (age_range out)) in
  let S := select (sales_pred (sales_range out)) in
  filtered_data out = S (A (G base))
  /\ A (S (G base)) = S (A (G base))
  /\ S (G (A base)) = S (A (G base))
  /\ G (S (A base)) = S (A (G base))
  /\ A (G (S base)) = S (A (G base))
  /\ G (A (S base)) = S (A (G base)).
Proof.
  intros Hdata Hrun G A S.
  pose proof (script_output _ _ _ _ _ Hdata Hrun) as Hp.
  apply pipeline_returns in Hp as (_ & _ & _ & _ & _ & _ & Hv & _).
  split; [exact Hv|].
  assert (HG : forall df, G df = select (gender_pred (default All (gender_filter ui))) df)
    by (intros df; apply by_gender_select).
  unfold A, S. rewrite !HG.
  set (g := gender_pred _). set (a := age_pred _). set (s := sales_pred _).
  repeat split; rewrite !select3; apply List.filter_ext; intros r;
    destruct (g r), (a r), (s r); reflexivity.
Qed.

Lemma filter_order_irrelevant_witness :
  sample_store !! 0%nat = Some sample
  /\ (script 0%nat narrowed sample_store).1 = Ok narrowed_out
  /\ by_gender Female (select (sales_pred (50, 200)) (select (age_pred (21, 60)) sample))
     = select (sales_pred (50, 200)) (select (age_pred (21, 60)) (by_gender Female sample)).
Proof.
  split; [reflexivity|]. split; [vm_compute; reflexivity|].
  apply (filter_order_irrelevant 0%nat narrowed sample_store sample narrowed_out);
    [reflexivity | vm_compute; reflexivity].
Defined.

(** C3: with the gender choice fixed, raising the lower bound or lowering
    the upper bound of the age range or of the sales range leaves a view that
    is a part of the former one, so it never has more rows. *)
Theorem narrowing_never_grows (data : loc) (ui ui' : Session) (σ : store)
    (base : DataFrame) (out out' : Output) :
  σ !! data = Some base ->
  (script data ui σ).1 = Ok out ->
  (script data ui' σ).1 = Ok out' ->
  gender_filter ui' = gender_filter ui ->
  fst (age_range out) <= fst (age_range out') ->
  snd (age_range out') <= snd (age_range out) ->
  fst (sales_range out) <= fst (sales_range out') ->
  snd (sales_range out') <= snd (sales_range out) ->
  filtered_data out' `sublist_of` filtered_data out
  /\ (length (filtered_data out') <= length (filtered_data out))%nat.
Proof.
  intros Hdata Hrun Hrun' Hg Ha1 Ha2 Hs1 Hs2.
  pose proof (script_output _ _ _ _ _ Hdata Hrun) as Hp.
  pose proof (script_output _ _ _ _ _ Hdata Hrun') as Hp'.
  apply pipeline_returns in Hp as (_ & _ & _ & _ & _ & _ & Hv & _).
  apply pipeline_returns in Hp' as (_ & _ & _ & _ & _ & _ & Hv' & _).
  assert (Hsub : filtered_data out' `sublist_of` filtered_data out).
  { rewrite Hv, Hv', Hg.
    etrans.
    - apply select_mono. intros r. by apply sales_pred_mono.
    - apply select_mono_arg. apply select_mono. intros r. by apply age_pred_mono. }
  split; [exact Hsub | by apply sublist_length].
Qed.

Lemma narrowing_never_grows_witness :
  sample_store !! 0%nat = Some sample
  /\ (script 0%nat untouched sample_store).1 = Ok sample_out
  /\ (script 0%nat tightened sample_store).1 = Ok tightened_out
  /\ (length (filtered_data tightened_out) <= length (filtered_data sample_out))%nat.
Proof.
  split; [reflexivity|]. split; [vm_compute; reflexivity|].
  split; [vm_compute; reflexivity|].
  apply (narrowing_never_grows 0%nat untouched tightened sample_store sample
           sample_out tightened_out);
    first [reflexivity | vm_compute; reflexivity | vm_compute; discriminate].
Defined.

(** ** Observed minimum and maximum *)

Lemma in_dropna (s : list num) (q : Q) : In q (dropna s) <-> In (Fin q) s.
Proof.
  unfold dropna. rewrite in_flat_map. split.
  - intros ([|q'] & Hin & Hq); simpl in Hq; [done|].
    destruct Hq as [<-|[]]. exact Hin.
  - intros Hin. exists (Fin q). split; [exact Hin | by left].
Qed.

Lemma Qminb_le_l (a b : Q) : (Qminb a b <= a)%Q.
Proof.
  unfold Qminb. destruct (Qle_bool a b) eqn:E; [apply Qle_refl|].
  apply Qlt_le_weak, Qnot_le_lt. intros H. apply Qle_bool_iff in H. congruence.
Qed.

Lemma Qminb_le_r (a b : Q) : (Qminb a b <= b)%Q.
Proof.
  unfold Qminb. destruct (Qle_bool a b) eqn:E; [by apply Qle_bool_iff|].
  apply Qle_refl.
Qed.

Lemma Qmaxb_ge_l (a b : Q) : (a <= Qmaxb a b)%Q.
Proof.
  unfold Qmaxb. destruct (Qle_bool a b) eqn:E; [by apply Qle_bool_iff|].
  apply Qle_refl.
Qed.

Lemma Qmaxb_ge_r (a b : Q) : (b <= Qmaxb a b)%Q.
Proof.
  unfold Qmaxb. destruct (Qle_bool a b) eqn:E; [apply Qle_refl|].
  apply Qlt_le_weak, Qnot_le_lt. intros H. apply Qle_bool_iff in H. congruence.
Qed.

Lemma fold_Qminb_spec (qs : list Q) (q : Q) :
  let m := fold_left Qminb qs q in
  In m (q :: qs) /\ forall x, In x (q :: qs) -> (m <= x)%Q.
Proof.
  revert q. induction qs as [|y qs IH]; intros q; simpl.
  - split; [by left|]. intros x [<-|[]]. apply Qle_refl.
  - destruct (IH (Qminb q y)) as [Hin Hle]. simpl in Hin, Hle. split.
    + destruct Hin as [Hm|Hin]; [|by right; right].
      rewrite <- Hm. unfold Qminb. destruct (Qle_bool q y); [by left | by right; left].
    + intros x [<-|[<-|Hx]].
      * eapply Qle_trans; [apply Hle; by left | apply Qminb_le_l].
      * eapply Qle_trans; [apply Hle; by left | apply Qminb_le_r].
      * apply Hle. by right.
Qed.

Lemma fold_Qmaxb_spec (qs : list Q) (q : Q) :
  let m := fold_left Qmaxb qs q in
  In m (q :: qs) /\ forall x, In x (q :: qs) -> (x <= m)%Q.
Proof.
  revert q. induction qs as [|y qs IH]; intros q; simpl.
  - split; [by left|]. intros x [<-|[]]. apply Qle_refl.
  - destruct (IH (Qmaxb q y)) as [Hin Hle]. simpl in Hin, Hle. split.
    + destruct Hin as [Hm|Hin]; [|by right; right].
      rewrite <- Hm. unfold Qmaxb. destruct (Qle_bool q y); [by right; left | by left].
    + intros x [<-|[<-|Hx]].
      * eapply Qle_trans; [apply Qmaxb_ge_l | apply Hle; by left].
      * eapply Qle_trans; [apply Qmaxb_ge_r | apply Hle; by left].
      * apply Hle. by right.
Qed.

(** [Series.min()] is a value of the series and a lower bound of its values.
    *)
Lemma series_min_spec (s : list num) (m : Q) :
  series_min s = Fin m ->
  In (Fin m) s /\ forall q, In (Fin q) s -> (m <= q)%Q.
Proof.
  unfold series_min. destruct (dropna s) as [|q qs] eqn:E; [done|].
  intros [= <-]. destruct (fold_Qminb_spec qs q) as [Hin Hle].
  rewrite <- E in Hin, Hle. split.
  - by apply in_dropna.
  - intros x Hx. apply Hle. by apply in_dropna.
Qed.

Lemma series_max_spec (s : list num) (m : Q) :
  series_max s = Fin m ->
  In (Fin m) s /\ forall q, In (Fin q) s -> (q <= m)%Q.
Proof.
  unfold series_max. destruct (dropna s) as [|q qs] eqn:E; [done|].
  intros [= <-]. destruct (fold_Qmaxb_spec qs q) as [Hin Hle].
  rewrite <- E in Hin, Hle. split.
  - by apply in_dropna.
  - intros x Hx. apply Hle. by apply in_dropna.
Qed.

(** [int(x)] leaves a whole number unchanged. *)
Lemma trunc_whole (q : Q) (z : Z) : (q == inject_Z z)%Q -> trunc q = z.
Proof.
  unfold Qeq, trunc, inject_Z. simpl. intros H.
  rewrite Z.mul_1_r in H. rewrite H. apply Z.quot_mul. done.
Qed.

Lemma py_int_returns (x : num) (z : Z) :
  py_int x = Ok z -> exists q, x = Fin q /\ z = trunc q.
Proof. destruct x as [|q]; simpl; [done|]. intros [= <-]. by exists q. Qed.

(** C4, as the script has it: the bounds handed to each slider are the
    observed minimum and maximum of the column converted by [int], that is
    truncated toward zero; they are the observed minimum and maximum
    themselves whenever those are whole numbers.  The age column is read from
    the gender-filtered frame, the sales column from the base frame. *)
Theorem slider_bounds_truncated (data : loc) (ui : Session) (σ : store)
    (base : DataFrame) (out : Output) :
  σ !! data = Some base ->
  (script data ui σ).1 = Ok out ->
  let gendered := by_gender (default All (gender_filter ui)) base in
  exists amin amax smin smax : Q,
    series_min (map demog_age gendered) = Fin amin
    /\ series_max (map demog_age gendered) = Fin amax
    /\ series_min (map int_tgt base) = Fin smin
    /\ series_max (map int_tgt base) = Fin smax
    /\ age_slider_min out = trunc amin
    /\ age_slider_max out = trunc amax
    /\ sales_min out = trunc smin
    /\ sales_max out = trunc smax
    /\ (forall z, (amin == inject_Z z)%Q -> age_slider_min out = z)
    /\ (forall z, (amax == inject_Z z)%Q -> age_slider_max out = z)
    /\ (forall z, (smin == inject_Z z)%Q -> sales_min out = z)
    /\ (forall z, (smax == inject_Z z)%Q -> sales_max out = z).
Proof.
  intros Hdata Hrun gendered.
  pose proof (script_output _ _ _ _ _ Hdata Hrun) as Hp.
  apply pipeline_returns in Hp as (Ha1 & Ha2 & Hs1 & Hs2 & _).
  apply py_int_returns in Ha1 as (amin & Ha1 & Ea1).
  apply py_int_returns in Ha2 as (amax & Ha2 & Ea2).
  apply py_int_returns in Hs1 as (smin & Hs1 & Es1).
  apply py_int_returns in Hs2 as (smax & Hs2 & Es2).
  exists amin, amax, smin, smax.
  rewrite Ea1, Ea2, Es1, Es2.
  repeat split; try assumption; intros z Hz; by apply trunc_whole.
Qed.

Lemma slider_bounds_truncated_witness :
  sample_store !! 0%nat = Some sample
  /\ (script 0%nat untouched sample_store).1 = Ok sample_out
  /\ exists amin amax smin smax : Q,
       series_min (map demog_age sample) = Fin amin
       /\ series_max (map demog_age sample) = Fin amax
       /\ series_min (map int_tgt sample) = Fin smin
       /\ series_max (map int_tgt sample) = Fin smax
       /\ age_slider_min sample_out = trunc amin
       /\ age_slider_max sample_out = trunc amax
       /\ sales_min sample_out = trunc smin
       /\ sales_max sample_out = trunc smax.
Proof.
  split; [reflexivity|]. split; [vm_compute; reflexivity|].
  destruct (slider_bounds_truncated 0%nat untouched sample_store sample sample_out)
    as (amin & amax & smin & smax & H1 & H2 & H3 & H4 & H5 & H6 & H7 & H8 & _);
    [reflexivity | vm_compute; reflexivity |].
  exists amin, amax, smin, smax. repeat split; assumption.
Defined.

(** C4 as stated fails on [sample]: the youngest customer is 20.5 years old
    and the age slider starts at 20. *)
Lemma slider_bounds_counterexample :
  (script 0%nat untouched sample_store).1 = Ok sample_out
  /\ series_min (map demog_age (by_gender All sample)) = Fin (41 # 2)
  /\ ~ (inject_Z (age_slider_min sample_out) == 41 # 2)%Q.
Proof.
  split; [vm_compute; reflexivity|]. split; [vm_compute; reflexivity|].
  vm_compute. discriminate.
Qed.

(** ** When a run returns and when it raises *)

(** A gender selection that matches no customer stops the run at line 41:
    the minimum of no ages is NaN and [int] rejects it. *)
Lemma empty_gender_selection_raises (data : loc) (ui : Session) (σ : store)
    (base : DataFrame) :
  σ !! data = Some base ->
  by_gender (default All (gender_filter ui)) base = [] ->
  (script data ui σ).1 = Raise (ValueError "cannot convert float NaN to integer").
Proof.
  intros Hdata Hempty.
  destruct (script_pipeline data ui σ base Hdata) as (σ' & -> & _). simpl.
  unfold pipeline. by rewrite Hempty.
Qed.

(** C5 does not hold of the script: on a table of women only, selecting
    [Male] leaves no row, and the run raises [ValueError] while it sets up
    the age slider instead of showing an empty view. *)
Theorem no_match_gender_raises :
  by_gender Male [alice; carol; erin] = []
  /\ (script 0%nat men_only women_store).1
     = Raise (ValueError "cannot convert float NaN to integer").
Proof. split; vm_compute; reflexivity. Qed.

(** The sales slider is set up from the base table, so an age range that
    matches no customer does not stop the run. *)
Lemma empty_age_selection_returns :
  (script 0%nat thirties idle_store).1 = Ok thirties_out
  /\ filtered_data thirties_out = [].
Proof. split; vm_compute; reflexivity. Qed.

(** ** Metrics of an empty view *)




(** ** The prediction *)



(** ** The default selection *)

Lemma num_ge_spec (x : num) (k : Z) :
  num_ge x k = true <-> exists q, x = Fin q /\ (inject_Z k <= q)%Q.
Proof.
  destruct x as [|q]; simpl.
  - split; [done | by intros (q & ? & _)].
  - rewrite Qle_bool_iff. split; [by exists q | by intros (q' & [= <-] & H)].
Qed.

Lemma num_le_spec (x : num) (k : Z) :
  num_le x k = true <-> exists q, x = Fin q /\ (q <= inject_Z k)%Q.
Proof.
  destruct x as [|q]; simpl.
  - split; [done | by intros (q & ? & _)].
  - rewrite Qle_bool_iff. split; [by exists q | by intros (q' & [= <-] & H)].
Qed.

(** A row passes the age mask exactly when its age is present and lies in the
    closed interval. *)
Lemma age_pred_spec (lo hi : Z) (r : Row) :
  age_pred (lo, hi) r = true
  <-> exists q, demog_age r = Fin q /\ (inject_Z lo <= q)%Q /\ (q <= inject_Z hi)%Q.
Proof.
  unfold age_pred. simpl. rewrite andb_true_iff, num_ge_spec, num_le_spec. split.
  - intros [(q & Hq & Hlo) (q' & Hq' & Hhi)]. exists q.
    rewrite Hq in Hq'. injection Hq' as <-. done.
  - intros (q & Hq & Hlo & Hhi). split; by exists q.
Qed.

(** With every sales figure present and whole extremes, the full sales range
    keeps every row. *)
Lemma full_sales_range_keeps (base : DataFrame) (lo hi : Z) (r : Row) :
  (forall r', In r' base -> int_tgt r' <> NaN) ->
  (forall q, series_min (map int_tgt base) = Fin q -> exists z, (q == inject_Z z)%Q) ->
  (forall q, series_max (map int_tgt base) = Fin q -> exists z, (q == inject_Z z)%Q) ->
  py_int (series_min (map int_tgt base)) = Ok lo ->
  py_int (series_max (map int_tgt base)) = Ok hi ->
  In r base ->
  sales_pred (lo, hi) r = true.
Proof.
  intros Hpresent Hmin Hmax Hlo Hhi Hr.
  apply py_int_returns in Hlo as (qlo & Elo & ->).
  apply py_int_returns in Hhi as (qhi & Ehi & ->).
  destruct (Hmin _ Elo) as [zlo Hzlo]. destruct (Hmax _ Ehi) as [zhi Hzhi].
  rewrite (trunc_whole _ _ Hzlo), (trunc_whole _ _ Hzhi).
  destruct (series_min_spec _ _ Elo) as [_ Hle].
  destruct (series_max_spec _ _ Ehi) as [_ Hge].
  destruct (int_tgt r) as [|q] eqn:Eq; [by destruct (Hpresent r Hr)|].
  assert (Hin : In (Fin q) (map int_tgt base)).
  { rewrite <- Eq. by apply in_map. }
  unfold sales_pred. rewrite Eq. simpl. apply andb_true_iff.
  split; apply Qle_bool_iff.
  - rewrite <- Hzlo. by apply Hle.
  - rewrite <- Hzhi. by apply Hge.
Qed.

(** C9, as the script has it: with gender [All], the age range 20 to 30 and
    the sales range at the bounds of its slider, the view is exactly the
    rows whose age is present and within 20 to 30 and whose sales figure is
    present and within the slider's bounds; when no sales figure is blank and
    the least and greatest of them are whole numbers, these are exactly the
    rows whose age is within 20 to 30.  The three metrics are computed from
    the view alone. *)
Theorem default_selection_view (data : loc) (ui : Session) (σ : store)
    (base : DataFrame) (out : Output) :
  σ !! data = Some base ->
  (script data ui σ).1 = Ok out ->
  default All (gender_filter ui) = All ->
  age_range out = (20, 30) ->
  sales_range out = (sales_min out, sales_max out) ->
  filtered_data out
  = List.filter (fun r => age_pred (20, 30) r
                          && sales_pred (sales_min out, sales_max out) r) base
  /\ ((forall r, In r base -> int_tgt r <> NaN) ->
      (forall q, series_min (map int_tgt base) = Fin q -> exists z, (q == inject_Z z)%Q) ->
      (forall q, series_max (map int_tgt base) = Fin q -> exists z, (q == inject_Z z)%Q) ->
      filtered_data out = List.filter (age_pred (20, 30)) base)
  /\ average_sales out = series_mean (map int_tgt (filtered_data out))
  /\ total_sales out = series_sum (map int_tgt (filtered_data out))
  /\ median_age out = series_median (map demog_age (filtered_data out)).
Proof.
  intros Hdata Hrun Hg Ha Hs.
  pose proof (script_output _ _ _ _ _ Hdata Hrun) as Hp.
  apply pipeline_returns in Hp
    as (_ & _ & Hlo & Hhi & _ & _ & Hv & Hm & Ht & Hd & _).
  rewrite Hg, Ha, Hs in Hv. simpl in Hv.
  rewrite select_select in Hv.
  repeat split; try assumption.
  intros Hpresent Hmin Hmax. rewrite Hv.
  apply List.filter_ext_in. intros r Hr.
  rewrite (full_sales_range_keeps base _ _ r Hpresent Hmin Hmax Hlo Hhi Hr).
  apply andb_true_r.
Qed.

Lemma default_selection_view_witness :
  complete_store !! 0%nat = Some complete
  /\ (script 0%nat untouched complete_store).1 = Ok complete_out
  /\ (forall r, In r complete -> int_tgt r <> NaN)
  /\ filtered_data complete_out = List.filter (age_pred (20, 30)) complete.
Proof.
  assert (Hpresent : forall r, In r complete -> int_tgt r <> NaN).
  { intros r [<-|[<-|[<-|[]]]]; discriminate. }
  split; [reflexivity|]. split; [vm_compute; reflexivity|].
  split; [exact Hpresent|].
  assert (Hrun : (script 0%nat untouched complete_store).1 = Ok complete_out)
    by (vm_compute; reflexivity).
  destruct (default_selection_view 0%nat untouched complete_store complete
              complete_out eq_refl Hrun eq_refl eq_refl eq_refl) as (_ & H & _).
  apply H; [exact Hpresent| |].
  - intros q [= <-]. exists 100. reflexivity.
  - intros q [= <-]. exists 7000. reflexivity.
Defined.

(** C9 as stated fails on [sample]: Carol is 29 years old and her sales
    figure is blank, so the full sales range leaves her out of the view. *)
Lemma default_selection_counterexample :
  (script 0%nat untouched sample_store).1 = Ok sample_out
  /\ age_range sample_out = (20, 30)
  /\ sales_range sample_out = (sales_min sample_out, sales_max sample_out)
  /\ age_pred (20, 30) carol = true
  /\ In carol sample
  /\ ~ In carol (filtered_data sample_out)
  /\ filtered_data sample_out <> List.filter (age_pred (20, 30)) sample.
Proof.
  split; [vm_compute; reflexivity|]. repeat split; try reflexivity.
  - right; right; by left.
  - intros [H|[H|[]]]; discriminate.
  - vm_compute. discriminate.
Qed.

(** ** The base table is never written *)

(** C10: a run leaves the object bound to [data] as it was; indeed every
    object that existed before the run is unchanged after it, whether the
    run returns or raises, because the copy and each of the three selections
    build a new object. *)
Theorem base_dataset_unchanged (data : loc) (ui : Session) (σ : store) :
  (script data ui σ).2 !! data = σ !! data
  /\ σ ⊆ (script data ui σ).2.
Proof.
  destruct (σ !! data) as [base|] eqn:Hdata.
  - destruct (script_pipeline data ui σ base Hdata) as (σ' & -> & Hsub).
    simpl. split; [|exact Hsub].
    by apply (lookup_weaken σ σ' data base).
  - rewrite (script_unbound data ui σ Hdata). simpl. by split.
Qed.

(** ** Export and reading back *)

Section ExportRoundTrip.
Variable float_str : Q -> string.
Variable must_quote : ascii -> bool.
Variable other_columns : list string.
Hypothesis quote_comma : must_quote comma = true.
Hypothesis quote_dquote : must_quote dquote = true.
Hypothesis quote_LF : must_quote LF = true.

Lemma plain_char (c : ascii) :
  must_quote c = false ->
  Ascii.eqb c LF = false /\ Ascii.eqb c dquote = false /\ Ascii.eqb c comma = false.
Proof using quote_comma quote_dquote quote_LF.
  intros Hc. repeat split; apply Ascii.eqb_neq; intros ->; congruence.
Qed.

Lemma read_plain (cs field : list ascii) record records rest :
  existsb must_quote cs = false ->
  read_records InField field record records (cs ++ rest)
  = read_records InField (field ++ cs) record records rest.
Proof using quote_comma quote_dquote quote_LF.
  revert field. induction cs as [|c cs IH]; intros field Hcs; simpl.
  - by rewrite app_nil_r.
  - simpl in Hcs. apply orb_false_iff in Hcs as [Hc Hcs].
    destruct (plain_char c Hc) as (-> & _ & ->).
    rewrite IH by done. by rewrite <- app_assoc.
Qed.

Lemma read_escaped (cs field : list ascii) record records rest :
  read_records InQuoted field record records (escape cs ++ dquote :: rest)
  = read_records QuoteInQuoted (field ++ cs) record records rest.
Proof.
  revert field. induction cs as [|c cs IH]; intros field; simpl.
  - by rewrite app_nil_r.
  - destruct (Ascii.eqb c dquote) eqn:E.
    + apply Ascii.eqb_eq in E as ->. simpl. rewrite IH. by rewrite <- app_assoc.
    + simpl. rewrite E, IH. by rewrite <- app_assoc.
Qed.

Lemma end_field_string (f : string) (record : list string) :
  end_field (list_ascii_of_string f) record = record ++ [f].
Proof. unfold end_field. by rewrite string_of_list_ascii_of_string. Qed.

(** A field and the comma after it, read at the start of a record or of a
    field. *)
Lemma read_field_comma (st : reader_state) (force : bool) (f : string)
    record records rest :
  st = StartField \/ (st = StartRecord /\ record = []) ->
  read_records st [] record records
    (write_field must_quote force f ++ comma :: rest)
  = read_records StartField [] (record ++ [f]) records rest.
Proof using quote_comma quote_dquote quote_LF.
  intros Hst. rewrite <- end_field_string. unfold write_field.
  destruct (force || existsb must_quote (list_ascii_of_string f)) eqn:E.
  - cbn [app]. rewrite <- app_assoc. cbn [app].
    destruct Hst as [->|[-> ->]]; simpl; by rewrite read_escaped.
  - apply orb_false_iff in E as [_ E].
    destruct (list_ascii_of_string f) as [|c cs]; simpl.
    + by destruct Hst as [->|[-> ->]].
    + simpl in E. apply orb_false_iff in E as [Hc E].
      destruct (plain_char c Hc) as (-> & -> & ->).
      destruct Hst as [->|[-> ->]]; by rewrite (read_plain cs [c]).
Qed.

(** A field and the line feed after it.  At the start of a record the
    field must have been written with at least one byte. *)
Lemma read_field_LF (st : reader_state) (force : bool) (f : string)
    record records rest :
  st = StartField \/ (st = StartRecord /\ record = [] /\ (force = true \/ f <> ""%string)) ->
  read_records st [] record records
    (write_field must_quote force f ++ LF :: rest)
  = read_records StartRecord [] [] (records ++ [record ++ [f]]) rest.
Proof using quote_comma quote_dquote quote_LF.
  intros Hst. rewrite <- end_field_string. unfold write_field.
  destruct (force || existsb must_quote (list_ascii_of_string f)) eqn:E.
  - cbn [app]. rewrite <- app_assoc. cbn [app].
    destruct Hst as [->|(-> & -> & _)]; simpl; by rewrite read_escaped.
  - apply orb_false_iff in E as [Hforce E].
    destruct f as [|c f]; simpl.
    + destruct Hst as [->|(-> & -> & [Hf|Hf])]; [done|congruence|done].
    + simpl in E. apply orb_false_iff in E as [Hc E].
      destruct (plain_char c Hc) as (-> & -> & ->).
      destruct Hst as [->|(-> & -> & _)];
        by rewrite (read_plain (list_ascii_of_string f) [c]).
Qed.

Lemma read_fields (fs record : list string) records rest :
  fs <> [] ->
  read_records StartField [] record records
    (write_fields must_quote fs ++ LF :: rest)
  = read_records StartRecord [] [] (records ++ [record ++ fs]) rest.
Proof using quote_comma quote_dquote quote_LF.
  revert record. induction fs as [|f fs IH]; intros record Hne; [done|].
  destruct fs as [|f2 fs].
  - simpl. apply read_field_LF. by left.
  - change (write_fields must_quote (f :: f2 :: fs))
      with (write_field must_quote false f ++ comma :: write_fields must_quote (f2 :: fs)).
    rewrite <- app_assoc. cbn [app].
    rewrite read_field_comma by (by left).
    rewrite IH by done. by rewrite <- app_assoc.
Qed.

Lemma read_record (fs : list string) records rest :
  fs <> [] ->
  read_records StartRecord [] [] records (write_record must_quote fs ++ rest)
  = read_records StartRecord [] [] (records ++ [fs]) rest.
Proof using quote_comma quote_dquote quote_LF.
  intros Hne. destruct fs as [|f [|f2 fs]]; [done| |].
  - unfold write_record. rewrite <- app_assoc. simpl.
    rewrite read_field_LF; [done|]. right. repeat split.
    destruct (String.eqb f "") eqn:E; [by left|].
    right. by apply String.eqb_neq.
  - unfold write_record.
    change (write_fields must_quote (f :: f2 :: fs))
      with (write_field must_quote false f ++ comma :: write_fields must_quote (f2 :: fs)).
    rewrite <- !app_assoc. cbn [app].
    rewrite read_field_comma by (by right).
    by rewrite read_fields.
Qed.

Lemma read_all_records (rs records : list (list string)) :
  Forall (fun fs => fs <> []) rs ->
  read_records StartRecord [] [] records (concat (map (write_record must_quote) rs))
  = Some (records ++ rs).
Proof using quote_comma quote_dquote quote_LF.
  revert records. induction rs as [|fs rs IH]; intros records Hrs; simpl.
  - by rewrite app_nil_r.
  - apply Forall_cons in Hrs as [Hfs Hrs].
    rewrite read_record by done. rewrite IH by done. by rewrite <- app_assoc.
Qed.

End ExportRoundTrip.



(** * Further properties of a run *)

(** ** Outcome of a run *)

Lemma series_min_defined (s : list num) (z : Z) :
  py_int (series_min s) = Ok z -> dropna s <> [].
Proof. unfold series_min. by destruct (dropna s). Qed.

(** X1: a run returns only if both sliders can be given bounds: some customer
    of the selected gender has an age, and some customer of the base table
    has a sales figure. *)
Theorem run_returns_only_with_values (data : loc) (ui : Session) (σ : store)
    (base : DataFrame) (out : Output) :
  σ !! data = Some base ->
  (script data ui σ).1 = Ok out ->
  dropna (map demog_age (by_gender (default All (gender_filter ui)) base)) <> []
  /\ dropna (map int_tgt base) <> [].
Proof.
  intros Hdata Hrun.
  pose proof (script_output _ _ _ _ _ Hdata Hrun) as Hp.
  apply pipeline_returns in Hp as (Ha & _ & Hs & _).
  split; by eapply series_min_defined.
Qed.

Lemma run_returns_only_with_values_witness :
  sample_store !! 0%nat = Some sample
  /\ (script 0%nat untouched sample_store).1 = Ok sample_out
  /\ dropna (map demog_age (by_gender All sample)) <> []
  /\ dropna (map int_tgt sample) <> [].
Proof.
  split; [reflexivity|]. split; [vm_compute; reflexivity|].
  apply (run_returns_only_with_values 0%nat untouched sample_store sample
           sample_out);
    [reflexivity | vm_compute; reflexivity].
Defined.

(** X3: a run after a run shows what a single run shows: the output depends on
    the table bound to [data] and on the widgets only, not on the objects an
    earlier run left in the store. *)
Theorem rerun_same_output (data : loc) (ui ui0 : Session) (σ : store) :
  (script data ui (script data ui0 σ).2).1 = (script data ui σ).1.
Proof.
  destruct (σ !! data) as [base|] eqn:Hdata.
  - destruct (script_pipeline data ui0 σ base Hdata) as (σ0 & -> & Hsub).
    simpl.
    assert (Hdata0 : σ0 !! data = Some base) by by apply (lookup_weaken σ σ0).
    destruct (script_pipeline data ui σ base Hdata) as (σ1 & -> & _).
    destruct (script_pipeline data ui σ0 base Hdata0) as (σ2 & -> & _).
    reflexivity.
  - by rewrite (script_unbound data ui0 σ Hdata).
Qed.

(** ** The rows of the view *)

Lemma sales_pred_spec (lo hi : Z) (r : Row) :
  sales_pred (lo, hi) r = true
  <-> exists q, int_tgt r = Fin q /\ (inject_Z lo <= q)%Q /\ (q <= inject_Z hi)%Q.
Proof.
  unfold sales_pred. simpl. rewrite andb_true_iff, num_ge_spec, num_le_spec. split.
  - intros [(q & Hq & Hlo) (q' & Hq' & Hhi)]. exists q.
    rewrite Hq in Hq'. injection Hq' as <-. done.
  - intros (q & Hq & Hlo & Hhi). split; by exists q.
Qed.

(** The view as one filter of the base table. *)
Lemma view_filter (base : DataFrame) (ui : Session) (out : Output) :
  pipeline base ui = Ok out ->
  filtered_data out
  = List.filter (fun r => gender_pred (default All (gender_filter ui)) r
                          && age_pred (age_range out) r
                          && sales_pred (sales_range out) r) base.
Proof.
  intros Hp. apply pipeline_returns in Hp as (_ & _ & _ & _ & _ & _ & Hv & _).
  by rewrite Hv, by_gender_select, select3.
Qed.

(** X4: a row is in the view exactly when it is a row of the base table, it
    passes the gender choice, its age is present and within the selected
    age range, and its sales figure is present and within the selected
    sales range, both ends included. *)
Theorem view_membership (data : loc) (ui : Session) (σ : store)
    (base : DataFrame) (out : Output) (r : Row) :
  σ !! data = Some base ->
  (script data ui σ).1 = Ok out ->
  In r (filtered_data out)
  <-> In r base
      /\ gender_pred (default All (gender_filter ui)) r = true
      /\ (exists q, demog_age r = Fin q
                    /\ (inject_Z (fst (age_range out)) <= q)%Q
                    /\ (q <= inject_Z (snd (age_range out)))%Q)
      /\ (exists q, int_tgt r = Fin q
                    /\ (inject_Z (fst (sales_range out)) <= q)%Q
                    /\ (q <= inject_Z (snd (sales_range out)))%Q).
Proof.
  intros Hdata Hrun.
  pose proof (script_output _ _ _ _ _ Hdata Hrun) as Hp.
  rewrite (view_filter _ _ _ Hp), filter_In, !andb_true_iff.
  destruct (age_range out) as [alo ahi], (sales_range out) as [slo shi].
  rewrite age_pred_spec, sales_pred_spec. simpl. tauto.
Qed.

Lemma view_membership_witness :
  sample_store !! 0%nat = Some sample
  /\ (script 0%nat untouched sample_store).1 = Ok sample_out
  /\ (In bob (filtered_data sample_out)
      <-> In bob sample
          /\ gender_pred All bob = true
          /\ (exists q, demog_age bob = Fin q
                        /\ (inject_Z 20 <= q)%Q /\ (q <= inject_Z 30)%Q)
          /\ (exists q, int_tgt bob = Fin q
                        /\ (inject_Z 0 <= q)%Q /\ (q <= inject_Z 7000)%Q)).
Proof.
  split; [reflexivity|]. split; [vm_compute; reflexivity|].
  apply (view_membership 0%nat untouched sample_store sample sample_out bob);
    [reflexivity | vm_compute; reflexivity].
Defined.

Lemma filter_absorb (p q : Row -> bool) (df : DataFrame) :
  (forall r, q r = true -> p r = true) ->
  List.filter p (List.filter q df) = List.filter q df.
Proof.
  intros Hqp. induction df as [|r df IH]; simpl; [done|].
  destruct (q r) eqn:Hq; [|exact IH]. simpl. by rewrite (Hqp r Hq), IH.
Qed.

(** X5: selecting again by the gender choice, the age range or the sales range
    of a run leaves its view as it is. *)
Theorem view_fixed_by_its_selections (data : loc) (ui : Session) (σ : store)
    (base : DataFrame) (out : Output) :
  σ !! data = Some base ->
  (script data ui σ).1 = Ok out ->
  by_gender (default All (gender_filter ui)) (filtered_data out) = filtered_data out
  /\ select (age_pred (age_range out)) (filtered_data out) = filtered_data out
  /\ select (sales_pred (sales_range out)) (filtered_data out) = filtered_data out.
Proof.
  intros Hdata Hrun.
  pose proof (script_output _ _ _ _ _ Hdata Hrun) as Hp.
  rewrite by_gender_select, !getitem_mask_filter, (view_filter _ _ _ Hp).
  repeat split; apply filter_absorb; intros r Hr;
    apply andb_true_iff in Hr as [Hr Hs]; apply andb_true_iff in Hr as [Hg Ha];
    assumption.
Qed.

Lemma view_fixed_by_its_selections_witness :
  sample_store !! 0%nat = Some sample
  /\ (script 0%nat narrowed sample_store).1 = Ok narrowed_out
  /\ by_gender Female (filtered_data narrowed_out) = filtered_data narrowed_out
  /\ select (age_pred (21, 60)) (filtered_data narrowed_out) = filtered_data narrowed_out
  /\ select (sales_pred (50, 200)) (filtered_data narrowed_out) = filtered_data narrowed_out.
Proof.
  split; [reflexivity|]. split; [vm_compute; reflexivity|].
  apply (view_fixed_by_its_selections 0%nat narrowed sample_store sample narrowed_out);
    [reflexivity | vm_compute; reflexivity].
Defined.

(** X6: with the same age and sales ranges, the view of a gender choice is a
    part of the view of [All]. *)
Theorem gender_choice_narrows (data : loc) (ui ui' : Session) (σ : store)
    (base : DataFrame) (out out' : Output) :
  σ !! data = Some base ->
  (script data ui σ).1 = Ok out ->
  (script data ui' σ).1 = Ok out' ->
  default All (gender_filter ui) = All ->
  age_range out' = age_range out ->
  sales_range out' = sales_range out ->
  filtered_data out' `sublist_of` filtered_data out
  /\ (length (filtered_data out') <= length (filtered_data out))%nat.
Proof.
  intros Hdata Hrun Hrun' Hall Ha Hs.
  pose proof (script_output _ _ _ _ _ Hdata Hrun) as Hp.
  pose proof (script_output _ _ _ _ _ Hdata Hrun') as Hp'.
  apply pipeline_returns in Hp as (_ & _ & _ & _ & _ & _ & Hv & _).
  apply pipeline_returns in Hp' as (_ & _ & _ & _ & _ & _ & Hv' & _).
  assert (Hsub : filtered_data out' `sublist_of` filtered_data out).
  { rewrite Hv, Hv', Ha, Hs, Hall. simpl.
    do 2 apply select_mono_arg. apply by_gender_sublist. }
  split; [exact Hsub | by apply sublist_length].
Qed.

Lemma gender_choice_narrows_witness :
  sample_store !! 0%nat = Some sample
  /\ (script 0%nat adults sample_store).1 = Ok adults_out
  /\ (script 0%nat women sample_store).1 = Ok women_out
  /\ filtered_data women_out `sublist_of` filtered_data adults_out.
Proof.
  split; [reflexivity|]. split; [vm_compute; reflexivity|].
  split; [vm_compute; reflexivity|].
  apply (gender_choice_narrows 0%nat adults women sample_store sample
           adults_out women_out);
    first [reflexivity | vm_compute; reflexivity].
Defined.

(** ** The bounds of the sliders *)

Lemma trunc_mono (a b : Q) : (a <= b)%Q -> trunc a <= trunc b.
Proof.
  unfold Qle, trunc. intros H.
  rewrite <- (Z.quot_mul_cancel_r (Qnum a) (Zpos (Qden a)) (Zpos (Qden b))) by done.
  rewrite <- (Z.quot_mul_cancel_r (Qnum b) (Zpos (Qden b)) (Zpos (Qden a))) by done.
  rewrite (Z.mul_comm (Zpos (Qden b)) (Zpos (Qden a))).
  apply Z.quot_le_mono; [done | exact H].
Qed.

Lemma trunc_lt_succ (q : Q) : (q < inject_Z (trunc q + 1))%Q.
Proof.
  unfold Qlt, trunc, inject_Z. simpl. rewrite Z.mul_1_r.
  pose proof (Z.quot_rem' (Qnum q) (Zpos (Qden q))) as Hqr.
  pose proof (Z.rem_bound_abs (Qnum q) (Zpos (Qden q))) as Hb.
  assert (Z.abs (Z.rem (Qnum q) (Zpos (Qden q))) < Zpos (Qden q)) by (apply Hb; done).
  lia.
Qed.

Lemma trunc_gt_pred (q : Q) : (inject_Z (trunc q - 1) < q)%Q.
Proof.
  unfold Qlt, trunc, inject_Z. simpl. rewrite Z.mul_1_r.
  pose proof (Z.quot_rem' (Qnum q) (Zpos (Qden q))) as Hqr.
  pose proof (Z.rem_bound_abs (Qnum q) (Zpos (Qden q))) as Hb.
  assert (Z.abs (Z.rem (Qnum q) (Zpos (Qden q))) < Zpos (Qden q)) by (apply Hb; done).
  lia.
Qed.

Lemma series_min_le_max (s : list num) (lo hi : Q) :
  series_min s = Fin lo -> series_max s = Fin hi -> (lo <= hi)%Q.
Proof.
  intros Hlo Hhi.
  destruct (series_min_spec _ _ Hlo) as [Hin _].
  destruct (series_max_spec _ _ Hhi) as [_ Hle]. by apply Hle.
Qed.

Lemma int_bounds_ordered (s : list num) (lo hi : Z) :
  py_int (series_min s) = Ok lo -> py_int (series_max s) = Ok hi -> lo <= hi.
Proof.
  intros Hlo Hhi.
  apply py_int_returns in Hlo as (qlo & Elo & ->).
  apply py_int_returns in Hhi as (qhi & Ehi & ->).
  apply trunc_mono. by eapply series_min_le_max.
Qed.

(** X7: each slider is handed a lower bound that is not above its upper bound.
    *)
Theorem slider_bounds_ordered (data : loc) (ui : Session) (σ : store)
    (base : DataFrame) (out : Output) :
  σ !! data = Some base ->
  (script data ui σ).1 = Ok out ->
  age_slider_min out <= age_slider_max out /\ sales_min out <= sales_max out.
Proof.
  intros Hdata Hrun.
  pose proof (script_output _ _ _ _ _ Hdata Hrun) as Hp.
  apply pipeline_returns in Hp as (Ha1 & Ha2 & Hs1 & Hs2 & _).
  split; by eapply int_bounds_ordered.
Qed.

Lemma slider_bounds_ordered_witness :
  sample_store !! 0%nat = Some sample
  /\ (script 0%nat untouched sample_store).1 = Ok sample_out
  /\ age_slider_min sample_out <= age_slider_max sample_out
  /\ sales_min sample_out <= sales_max sample_out.
Proof.
  split; [reflexivity|]. split; [vm_compute; reflexivity|].
  apply (slider_bounds_ordered 0%nat untouched sample_store sample sample_out);
    [reflexivity | vm_compute; reflexivity].
Defined.

(** X8: the bounds of the sales slider are the same for every selection, and
    the bounds of the age slider depend on the gender choice only. *)
Theorem slider_bounds_independent (data : loc) (ui ui' : Session) (σ : store)
    (base : DataFrame) (out out' : Output) :
  σ !! data = Some base ->
  (script data ui σ).1 = Ok out ->
  (script data ui' σ).1 = Ok out' ->
  sales_min out' = sales_min out
  /\ sales_max out' = sales_max out
  /\ (default All (gender_filter ui') = default All (gender_filter ui) ->
      age_slider_min out' = age_slider_min out
      /\ age_slider_max out' = age_slider_max out).
Proof.
  intros Hdata Hrun Hrun'.
  pose proof (script_output _ _ _ _ _ Hdata Hrun) as Hp.
  pose proof (script_output _ _ _ _ _ Hdata Hrun') as Hp'.
  apply pipeline_returns in Hp as (Ha1 & Ha2 & Hs1 & Hs2 & _).
  apply pipeline_returns in Hp' as (Ha1' & Ha2' & Hs1' & Hs2' & _).
  repeat split; try congruence; intros Hg; rewrite Hg in *; congruence.
Qed.

Lemma slider_bounds_independent_witness :
  sample_store !! 0%nat = Some sample
  /\ (script 0%nat untouched sample_store).1 = Ok sample_out
  /\ (script 0%nat narrowed sample_store).1 = Ok narrowed_out
  /\ sales_min narrowed_out = sales_min sample_out
  /\ sales_max narrowed_out = sales_max sample_out.
Proof.
  split; [reflexivity|]. split; [vm_compute; reflexivity|].
  split; [vm_compute; reflexivity|].
  destruct (slider_bounds_independent 0%nat untouched narrowed sample_store
              sample sample_out narrowed_out) as (H1 & H2 & _);
    [reflexivity | vm_compute; reflexivity | vm_compute; reflexivity |].
  by split.
Defined.

(** ** Ranges and the data *)

Lemma in_ages_by_gender (g : gender_choice) (base : DataFrame) (x : num) :
  In x (map demog_age (by_gender g base)) -> In x (map demog_age base).
Proof.
  rewrite !in_map_iff. intros (r & Hr & Hin). exists r. split; [done|].
  apply list_elem_of_In. eapply elem_of_sublist; [|apply by_gender_sublist].
  by apply list_elem_of_In.
Qed.

(** X9: the age slider of a gender choice is never wider than the age slider of
    [All]. *)
Theorem gender_age_bounds_within_all (data : loc) (ui ui' : Session) (σ : store)
    (base : DataFrame) (out out' : Output) :
  σ !! data = Some base ->
  (script data ui σ).1 = Ok out ->
  (script data ui' σ).1 = Ok out' ->
  default All (gender_filter ui) = All ->
  age_slider_min out <= age_slider_min out'
  /\ age_slider_max out' <= age_slider_max out.
Proof.
  intros Hdata Hrun Hrun' Hall.
  pose proof (script_output _ _ _ _ _ Hdata Hrun) as Hp.
  pose proof (script_output _ _ _ _ _ Hdata Hrun') as Hp'.
  apply pipeline_returns in Hp as (Ha1 & Ha2 & _).
  apply pipeline_returns in Hp' as (Ha1' & Ha2' & _).
  rewrite Hall in Ha1, Ha2. simpl in Ha1, Ha2.
  apply py_int_returns in Ha1 as (lo & Elo & ->).
  apply py_int_returns in Ha2 as (hi & Ehi & ->).
  apply py_int_returns in Ha1' as (lo' & Elo' & ->).
  apply py_int_returns in Ha2' as (hi' & Ehi' & ->).
  destruct (series_min_spec _ _ Elo) as [_ Hlo].
  destruct (series_max_spec _ _ Ehi) as [_ Hhi].
  destruct (series_min_spec _ _ Elo') as [Hin1 _].
  destruct (series_max_spec _ _ Ehi') as [Hin2 _].
  split; apply trunc_mono; [apply Hlo | apply Hhi]; by eapply in_ages_by_gender.
Qed.

Lemma gender_age_bounds_within_all_witness :
  sample_store !! 0%nat = Some sample
  /\ (script 0%nat adults sample_store).1 = Ok adults_out
  /\ (script 0%nat women sample_store).1 = Ok women_out
  /\ age_slider_min adults_out <= age_slider_min women_out
  /\ age_slider_max women_out <= age_slider_max adults_out.
Proof.
  split; [reflexivity|]. split; [vm_compute; reflexivity|].
  split; [vm_compute; reflexivity|].
  apply (gender_age_bounds_within_all 0%nat adults women sample_store sample
           adults_out women_out);
    first [reflexivity | vm_compute; reflexivity].
Defined.

Lemma select_none (p : Row -> bool) (df : DataFrame) :
  (forall r, In r df -> p r = false) -> select p df = [].
Proof.
  intros Hp. rewrite getitem_mask_filter.
  induction df as [|r df IH]; simpl; [done|].
  rewrite (Hp r) by by left. apply IH. intros r' Hr'. apply Hp. by right.
Qed.

(** No value of a series passes a range that lies wholly above the
    truncated maximum or wholly below the truncated minimum. *)
Lemma range_beyond_bounds (s : list num) (lo hi : Z) (range : Z * Z) (x : num) :
  py_int (series_min s) = Ok lo ->
  py_int (series_max s) = Ok hi ->
  hi < fst range \/ snd range < lo ->
  In x s ->
  num_ge x (fst range) && num_le x (snd range) = false.
Proof.
  intros Hlo Hhi Hout Hx.
  apply py_int_returns in Hlo as (qlo & Elo & ->).
  apply py_int_returns in Hhi as (qhi & Ehi & ->).
  destruct x as [|q]; [done|]. simpl.
  destruct (series_min_spec _ _ Elo) as [_ Hmin].
  destruct (series_max_spec _ _ Ehi) as [_ Hmax].
  specialize (Hmin q Hx). specialize (Hmax q Hx).
  apply andb_false_iff. destruct Hout as [Habove|Hbelow].
  - left. apply not_true_iff_false. rewrite Qle_bool_iff. intros Hle.
    pose proof (trunc_lt_succ qhi) as Hs.
    assert (Hz : (inject_Z (trunc qhi + 1) <= inject_Z (fst range))%Q)
      by (rewrite <- Zle_Qle; lia).
    lra.
  - right. apply not_true_iff_false. rewrite Qle_bool_iff. intros Hle.
    pose proof (trunc_gt_pred qlo) as Hs.
    assert (Hz : (inject_Z (snd range) <= inject_Z (trunc qlo - 1))%Q)
      by (rewrite <- Zle_Qle; lia).
    lra.
Qed.

(** X10: a selected age range that lies wholly above or wholly below the bounds
    of the age slider, or a selected sales range that lies wholly above or
    wholly below the bounds of the sales slider, gives the empty view: the
    mean and the median are NaN and the total is 0. *)
Theorem range_beyond_slider_gives_empty_view (data : loc) (ui : Session)
    (σ : store) (base : DataFrame) (out : Output) :
  σ !! data = Some base ->
  (script data ui σ).1 = Ok out ->
  age_slider_max out < fst (age_range out)
  \/ snd (age_range out) < age_slider_min out
  \/ sales_max out < fst (sales_range out)
  \/ snd (sales_range out) < sales_min out ->
  filtered_data out = []
  /\ average_sales out = NaN
  /\ total_sales out = Fin (0 # 1)
  /\ median_age out = NaN.
Proof.
  intros Hdata Hrun Hout.
  pose proof (script_output _ _ _ _ _ Hdata Hrun) as Hp.
  apply pipeline_returns in Hp
    as (Ha1 & Ha2 & Hs1 & Hs2 & _ & _ & Hv & Hm & Ht & Hd & _).
  assert (Hempty : filtered_data out = []).
  { rewrite Hv. destruct Hout as [H|[H|H']].
    - rewrite (select_none (age_pred _)); [done|]. intros r Hr.
      apply (range_beyond_bounds _ _ _ _ _ Ha1 Ha2); [by left | by apply in_map].
    - rewrite (select_none (age_pred _)); [done|]. intros r Hr.
      apply (range_beyond_bounds _ _ _ _ _ Ha1 Ha2); [by right | by apply in_map].
    - apply select_none. intros r Hr.
      apply (range_beyond_bounds _ _ _ _ _ Hs1 Hs2); [tauto|].
      apply in_map. apply list_elem_of_In.
      eapply elem_of_sublist; [by apply list_elem_of_In|].
      etrans; [apply select_sublist | apply by_gender_sublist]. }
  rewrite Hempty in Hm, Ht, Hd. by rewrite Hm, Ht, Hd.
Qed.

Lemma range_beyond_slider_gives_empty_view_witness :
  sample_store !! 0%nat = Some sample
  /\ (script 0%nat seniors sample_store).1 = Ok seniors_out
  /\ age_slider_max seniors_out < fst (age_range seniors_out)
  /\ filtered_data seniors_out = []
  /\ average_sales seniors_out = NaN
  /\ total_sales seniors_out = Fin (0 # 1)
  /\ median_age seniors_out = NaN.
Proof.
  split; [reflexivity|]. split; [vm_compute; reflexivity|].
  split; [reflexivity|].
  apply (range_beyond_slider_gives_empty_view 0%nat seniors sample_store sample
           seniors_out);
    [reflexivity | vm_compute; reflexivity | left; reflexivity].
Defined.

(** ** The metrics of a view that is not empty *)


Lemma insert_sorted_length (x : Q) (l : list Q) :
  length (insert_sorted x l) = S (length l).
Proof.
  induction l as [|z l IH]; simpl; [done|].
  destruct (Qle_bool x z); simpl; [done | by rewrite IH].
Qed.


Lemma sort_values_length (l : list Q) : length (sort_values l) = length l.
Proof.
  unfold sort_values. induction l as [|x l IH]; simpl; [done|].
  by rewrite insert_sorted_length, IH.
Qed.

Lemma dropna_present (f : Row -> num) (df : DataFrame) :
  (forall r, In r df -> exists q, f r = Fin q) ->
  length (dropna (map f df)) = length df.
Proof.
  induction df as [|r df IH]; intros Hf; simpl; [done|].
  destruct (Hf r) as [q ->]; [by left|]. simpl.
  rewrite IH; [done|]. intros r' Hr'. apply Hf. by right.
Qed.

Lemma in_dropna_map (f : Row -> num) (df : DataFrame) (q : Q) :
  In q (dropna (map f df)) -> exists r, In r df /\ f r = Fin q.
Proof.
  rewrite in_dropna, in_map_iff. intros (r & Hr & Hin). by exists r.
Qed.

Lemma series_mean_nan_iff (s : list num) : series_mean s = NaN <-> dropna s = [].
Proof. unfold series_mean. destruct (dropna s); split; done. Qed.

Lemma series_median_nan_iff (s : list num) : series_median s = NaN <-> dropna s = [].
Proof.
  unfold series_median. cbv zeta. rewrite sort_values_length.
  destruct (dropna s) as [|q qs]; [split; done|].
  cbn [length]. split; [|done].
  destruct (Nat.even (S (length qs))); discriminate.
Qed.

Lemma length_zero_nil {A : Type} (l : list A) : length l = 0%nat <-> l = [].
Proof. by destruct l. Qed.

(** The values a view holds: every row has an age within the selected age
    range and a sales figure within the selected sales range. *)
Lemma view_values (base : DataFrame) (ui : Session) (out : Output) (r : Row) :
  pipeline base ui = Ok out ->
  In r (filtered_data out) ->
  (exists q, demog_age r = Fin q
             /\ (inject_Z (fst (age_range out)) <= q)%Q
             /\ (q <= inject_Z (snd (age_range out)))%Q)
  /\ (exists q, int_tgt r = Fin q
                /\ (inject_Z (fst (sales_range out)) <= q)%Q
                /\ (q <= inject_Z (snd (sales_range out)))%Q).
Proof.
  intros Hp. rewrite (view_filter _ _ _ Hp), filter_In, !andb_true_iff.
  destruct (age_range out) as [alo ahi], (sales_range out) as [slo shi].
  rewrite age_pred_spec, sales_pred_spec. simpl. tauto.
Qed.

Lemma view_sales_present (base : DataFrame) (ui : Session) (out : Output) :
  pipeline base ui = Ok out ->
  length (dropna (map int_tgt (filtered_data out))) = length (filtered_data out).
Proof.
  intros Hp. apply dropna_present. intros r Hr.
  destruct (view_values _ _ _ r Hp Hr) as [_ (q & Hq & _)]. by exists q.
Qed.

Lemma view_ages_present (base : DataFrame) (ui : Session) (out : Output) :
  pipeline base ui = Ok out ->
  length (dropna (map demog_age (filtered_data out))) = length (filtered_data out).
Proof.
  intros Hp. apply dropna_present. intros r Hr.
  destruct (view_values _ _ _ r Hp Hr) as [(q & Hq & _) _]. by exists q.
Qed.

(** X11: the average sales and the median age shown by a run are NaN exactly
    when its view is empty. *)
Theorem metrics_nan_iff_empty_view (data : loc) (ui : Session) (σ : store)
    (base : DataFrame) (out : Output) :
  σ !! data = Some base ->
  (script data ui σ).1 = Ok out ->
  (average_sales out = NaN <-> filtered_data out = [])
  /\ (median_age out = NaN <-> filtered_data out = []).
Proof.
  intros Hdata Hrun.
  pose proof (script_output _ _ _ _ _ Hdata Hrun) as Hp.
  pose proof (view_sales_present _ _ _ Hp) as Hs.
  pose proof (view_ages_present _ _ _ Hp) as Ha.
  apply pipeline_returns in Hp as (_ & _ & _ & _ & _ & _ & _ & Hm & _ & Hd & _).
  rewrite Hm, Hd, series_mean_nan_iff, series_median_nan_iff.
  rewrite <- !(length_zero_nil (dropna _)), Hs, Ha.
  split; apply length_zero_nil.
Qed.

Lemma metrics_nan_iff_empty_view_witness :
  sample_store !! 0%nat = Some sample
  /\ (script 0%nat seniors sample_store).1 = Ok seniors_out
  /\ (average_sales seniors_out = NaN <-> filtered_data seniors_out = [])
  /\ (median_age seniors_out = NaN <-> filtered_data seniors_out = []).
Proof.
  split; [reflexivity|]. split; [vm_compute; reflexivity|].
  apply (metrics_nan_iff_empty_view 0%nat seniors sample_store sample seniors_out);
    [reflexivity | vm_compute; reflexivity].
Defined.

Lemma fold_sum_bounds (l : list Q) (acc lo hi : Q) :
  (forall x, In x l -> (lo <= x)%Q /\ (x <= hi)%Q) ->
  (acc + inject_Z (Z.of_nat (length l)) * lo <= fold_left Qplus l acc)%Q
  /\ (fold_left Qplus l acc <= acc + inject_Z (Z.of_nat (length l)) * hi)%Q.
Proof.
  revert acc. induction l as [|x l IH]; intros acc Hl.
  - cbn [fold_left length]. change (inject_Z (Z.of_nat 0)) with 0%Q. split; lra.
  - destruct (Hl x (or_introl eq_refl)) as [Hlo Hhi].
    destruct (IH (acc + x)%Q (fun y Hy => Hl y (or_intror Hy))) as [IH1 IH2].
    cbn [fold_left length]. rewrite Nat2Z.inj_succ, <- Z.add_1_r, inject_Z_plus.
    change (inject_Z 1) with 1%Q.
    set (n := inject_Z (Z.of_nat (length l))) in *.
    assert (E1 : ((n + 1) * lo == n * lo + lo)%Q) by ring.
    assert (E2 : ((n + 1) * hi == n * hi + hi)%Q) by ring.
    rewrite E1, E2.
    set (a := (n * lo)%Q) in *. set (b := (n * hi)%Q) in *.
    split.
    + apply Qle_trans with (acc + x + a)%Q; [|exact IH1]. lra.
    + apply Qle_trans with (acc + x + b)%Q; [exact IH2|]. lra.
Qed.

(** The sum of values that all lie in an interval lies between the number of
    values times its two ends. *)
Lemma series_sum_within (s : list num) (lo hi t : Q) :
  (forall x, In x (dropna s) -> (lo <= x)%Q /\ (x <= hi)%Q) ->
  series_sum s = Fin t ->
  (inject_Z (Z.of_nat (length (dropna s))) * lo <= t)%Q
  /\ (t <= inject_Z (Z.of_nat (length (dropna s))) * hi)%Q.
Proof.
  unfold series_sum. intros Hin [= <-].
  destruct (fold_sum_bounds (dropna s) 0 lo hi Hin) as [H1 H2].
  rewrite Qplus_0_l in H1, H2. by split.
Qed.

(** X12: the total shown lies between the number of rows of the view times
    the lower end and times the upper end of the selected sales range.  Over
    the rationals the statement needs no bound on the sizes; the hypothesis
    that the number of rows times either end stays within 2^53 is the
    condition under which every partial bound is a whole number that binary64
    represents, so that the sum pandas rounds obeys the same inequalities. *)
Theorem total_within_rows_times_range (data : loc) (ui : Session) (σ : store)
    (base : DataFrame) (out : Output) :
  σ !! data = Some base ->
  (script data ui σ).1 = Ok out ->
  (Z.of_nat (length (filtered_data out))
   * Z.max (Z.abs (fst (sales_range out))) (Z.abs (snd (sales_range out)))
   <= 2 ^ 53)%Z ->
  exists total : Q,
    total_sales out = Fin total
    /\ (inject_Z (Z.of_nat (length (filtered_data out)) * fst (sales_range out))
        <= total)%Q
    /\ (total
        <= inject_Z (Z.of_nat (length (filtered_data out)) * snd (sales_range out)))%Q.
Proof.
  intros Hdata Hrun _.
  pose proof (script_output _ _ _ _ _ Hdata Hrun) as Hp.
  pose proof (view_sales_present _ _ _ Hp) as Hs.
  pose proof (fun r => view_values _ _ _ r Hp) as Hvals.
  apply pipeline_returns in Hp as (_ & _ & _ & _ & _ & _ & _ & _ & Ht & _).
  exists (fold_left Qplus (dropna (map int_tgt (filtered_data out))) (0 # 1)).
  split; [exact Ht|].
  rewrite !inject_Z_mult, <- Hs.
  apply (series_sum_within (map int_tgt (filtered_data out))); [|reflexivity].
  intros x Hx. apply in_dropna_map in Hx as (r & Hr & Hq).
  destruct (Hvals r Hr) as [_ (q & Hq' & Hlo & Hhi)].
  rewrite Hq in Hq'. injection Hq' as <-. done.
Qed.

Lemma total_within_rows_times_range_witness :
  sample_store !! 0%nat = Some sample
  /\ (script 0%nat untouched sample_store).1 = Ok sample_out
  /\ (Z.of_nat (length (filtered_data sample_out))
      * Z.max (Z.abs (fst (sales_range sample_out)))
              (Z.abs (snd (sales_range sample_out))) <= 2 ^ 53)%Z
  /\ exists total : Q,
       total_sales sample_out = Fin total
       /\ (inject_Z (Z.of_nat (length (filtered_data sample_out))
                     * fst (sales_range sample_out)) <= total)%Q
       /\ (total <= inject_Z (Z.of_nat (length (filtered_data sample_out))
                              * snd (sales_range sample_out)))%Q.
Proof.
  split; [reflexivity|]. split; [vm_compute; reflexivity|].
  split; [vm_compute; discriminate|].
  apply (total_within_rows_times_range 0%nat untouched sample_store sample
           sample_out);
    [reflexivity | vm_compute; reflexivity | vm_compute; discriminate].
Defined.





(** ** What the exported bytes determine *)

Lemma read_csv_convert_df_to_csv (float_str : Q -> string)
    (must_quote : ascii -> bool) (columns : list string) (df : DataFrame) :
  must_quote comma = true ->
  must_quote dquote = true ->
  must_quote LF = true ->
  read_csv (convert_df_to_csv float_str must_quote columns df)
  = Some (header columns, map (row_text float_str) df).
Proof.
  intros Hc Hq Hl.
  unfold convert_df_to_csv, encode_utf8, to_csv, read_csv.
  rewrite list_ascii_of_string_of_list_ascii.
  rewrite (read_record must_quote Hc Hq Hl) by done.
  rewrite <- (List.map_map (row_text float_str) (write_record must_quote)).
  rewrite (read_all_records must_quote Hc Hq Hl); [done|].
  apply Forall_forall. intros fs Hfs.
  apply list_elem_of_In, in_map_iff in Hfs as (r & <- & _). done.
Qed.

(** X14: two exports are the same bytes only if they name the same columns and
    their views have, row by row, the same text in every cell: the commas,
    quotes and line feeds inside a cell never make two different tables of
    text look alike. *)
Theorem export_determines_text (float_str : Q -> string)
    (must_quote : ascii -> bool) (columns columns' : list string)
    (o o' : Output) :
  must_quote comma = true ->
  must_quote dquote = true ->
  must_quote LF = true ->
  csv_data float_str must_quote columns o
  = csv_data float_str must_quote columns' o' ->
  columns = columns'
  /\ map (row_text float_str) (filtered_data o)
     = map (row_text float_str) (filtered_data o').
Proof.
  intros Hc Hq Hl Heq. unfold csv_data in Heq.
  pose proof (read_csv_convert_df_to_csv float_str must_quote columns
                (filtered_data o) Hc Hq Hl) as H1.
  pose proof (read_csv_convert_df_to_csv float_str must_quote columns'
                (filtered_data o') Hc Hq Hl) as H2.
  rewrite Heq, H2 in H1. injection H1 as Hh Hrows.
  split; by symmetry.
Qed.

Lemma export_determines_text_witness :
  quote_minimal comma = true
  /\ quote_minimal dquote = true
  /\ quote_minimal LF = true
  /\ csv_data two_decimals quote_minimal sample_columns narrowed_out
     = csv_data two_decimals quote_minimal sample_columns tightened_out
  /\ map (row_text two_decimals) (filtered_data narrowed_out)
     = map (row_text two_decimals) (filtered_data tightened_out).
Proof.
  split; [reflexivity|]. split; [reflexivity|]. split; [reflexivity|].
  split; [reflexivity|].
  apply (export_determines_text two_decimals quote_minimal sample_columns
           sample_columns narrowed_out tightened_out);
    reflexivity.
Defined.

(** ** The prediction and its input *)

(** X15: the prediction depends on the number field only; for an input that is
    not negative it is at least the input, and a larger input gives a
    prediction at least as large. *)
Theorem prediction_monotone (data data' : loc) (ui ui' : Session)
    (σ σ' : store) (base base' : DataFrame) (out out' : Output) (x y : Q) :
  σ !! data = Some base ->
  σ' !! data' = Some base' ->
  (script data ui σ).1 = Ok out ->
  (script data' ui' σ').1 = Ok out' ->
  predict_sales ui = Some x ->
  predict_sales ui' = Some y ->
  (0 <= x)%Q ->
  (x <= y)%Q ->
  (x <= predicted_sales out)%Q
  /\ (predicted_sales out <= predicted_sales out')%Q
  /\ ((x == y)%Q -> (predicted_sales out == predicted_sales out')%Q).
Proof.
  intros Hdata Hdata' Hrun Hrun' Hx Hy Hpos Hle.
  pose proof (script_output _ _ _ _ _ Hdata Hrun) as Hp.
  pose proof (script_output _ _ _ _ _ Hdata' Hrun') as Hp'.
  apply pipeline_returns in Hp as (_ & _ & _ & _ & _ & _ & _ & _ & _ & _ & ->).
  apply pipeline_returns in Hp' as (_ & _ & _ & _ & _ & _ & _ & _ & _ & _ & ->).
  rewrite Hx, Hy. simpl. unfold multiplier.
  repeat split; [lra | lra |]. intros ->. reflexivity.
Qed.

Lemma prediction_monotone_witness :
  sample_store !! 0%nat = Some sample
  /\ idle_store !! 0%nat = Some [frank; grace]
  /\ (script 0%nat narrowed sample_store).1 = Ok narrowed_out
  /\ (script 0%nat forecast idle_store).1 = Ok forecast_out
  /\ (10 # 1 <= predicted_sales narrowed_out)%Q
  /\ (predicted_sales narrowed_out <= predicted_sales forecast_out)%Q.
Proof.
  split; [reflexivity|]. split; [reflexivity|].
  split; [vm_compute; reflexivity|]. split; [vm_compute; reflexivity|].
  destruct (prediction_monotone 0%nat 0%nat narrowed forecast sample_store
              idle_store sample [frank; grace] narrowed_out forecast_out
              (10 # 1) (25 # 1)) as (H1 & H2 & _);
    first [reflexivity | vm_compute; reflexivity | vm_compute; discriminate | idtac].
  by split.
Defined.
